(** * Medusa: query-key invalidation in medusa-react, price-list CRUD and
    two admin route handlers

  A shallow embedding of the parts of the repository that the
  specification talks about:

  - [Js]: the JavaScript data that flows through the code (JSON-like
    values, completions, objects as finite maps);
  - [QueryKeys]: react-query keys, the key sets of a domain and the
    store swap keys ([swapKey]);
  - [Hooks]: the query client, [buildCustomOptions], the custom admin
    hooks, the stock-location mutations and [useCreateReturn];
  - [PriceLists]: the price-list service exercised by the integration
    test of the pricing module;
  - [Routes]: the [GET /admin/shipping-options] and
    [DELETE /admin/products/{id}] handlers. *)

From stdpp Require Import gmap strings list fin_maps.

Local Open Scope string_scope.
Local Open Scope list_scope.

#[local] Set Warnings "-register-all".

(* ===================================================================== *)
(** ** JavaScript values *)
(* ===================================================================== *)

Module Js.

(** First-order JavaScript data ([unknown] values that are not
    functions): what is sent to and received from the API, what query
    keys are made of. *)
Inductive Json : Type :=
| JUndefined
| JNull
| JBool (b : bool)
| JNum (n : Z)
| JStr (s : string)
| JArr (items : list Json)
| JObj (fields : list (string * Json)).

(** The outcome of running a piece of JavaScript: a value, or a thrown
    exception. *)
Inductive Completion : Type :=
| Normal (v : Json)
| Throw (e : Json).

(** JavaScript truthiness ([if (x)]). *)
Definition truthy (v : Json) : bool :=
  match v with
  | JUndefined | JNull => false
  | JBool b => b
  | JNum n => negb (n =? 0)%Z
  | JStr s => negb (String.eqb s "")
  | JArr _ | JObj _ => true
  end.

(** The double-quote character (code 34), for messages that quote a
    name. *)
Definition dquote : string := String (Ascii.ascii_of_nat 34) EmptyString.

End Js.

Import Js.

(* ===================================================================== *)
(** ** Query keys *)
(* ===================================================================== *)

Module QueryKeys.

(** react-query: [type QueryKey = readonly unknown[]]. *)
Definition QueryKey : Type := list Json.

(** The members of the object returned by [queryKeysFactory] that the
    hooks use: [all], [lists()] and [detail(id)].  The factory itself
    lives in [hooks/utils] and is a parameter of everything below. *)
Record TQueryKey : Type := {
  all : QueryKey;
  lists : QueryKey;
  detail : string -> QueryKey;
}.

(** [const SWAPS_QUERY_KEY = `swaps` as const] *)
Definition SWAPS_QUERY_KEY : string := "swaps".

(** [typeof swapKey]: the factory's members and [cart]. *)
Record SwapQueryKey : Type := {
  swap_keys :> TQueryKey;
  cart : string -> QueryKey;
}.

(** [[
    const swapKey = {
      ...queryKeysFactory(SWAPS_QUERY_KEY),
      cart: (cartId: string) => [...swapKey.all, "cart", cartId] as const,
    }
    ]] *)
Definition swapKey (queryKeysFactory : string -> TQueryKey) : SwapQueryKey :=
  let base := queryKeysFactory SWAPS_QUERY_KEY in
  {| swap_keys := base;
     cart := fun cartId => all base ++ [JStr "cart"; JStr cartId] |}.

(** A key factory to evaluate the definitions on: the domain name,
    followed by ["list"] or by ["detail"] and the id. *)
Definition sampleFactory (globalKey : string) : TQueryKey :=
  {| all := [JStr globalKey];
     lists := [JStr globalKey; JStr "list"];
     detail := fun id => [JStr globalKey; JStr "detail"; JStr id] |}.

End QueryKeys.

Import QueryKeys.

(* ===================================================================== *)
(** ** The mutation hooks of medusa-react *)
(* ===================================================================== *)

Module Hooks.

(** What the hooks do to react-query's [QueryClient]: the keys handed
    to [invalidateQueries] so far, oldest first. *)
Definition QueryClient : Type := list Json.

(** [queryClient.invalidateQueries({ queryKey })] and
    [queryClient.invalidateQueries(queryKey)]: react-query reads both
    call shapes as the filter with that key. *)
Definition invalidateQueries (queryKey : Json) (queryClient : QueryClient)
  : QueryClient :=
  queryClient ++ [queryKey].

(** A callback such as [onSuccess]: called with arguments, it may use
    the query client and returns or throws. *)
Definition Callback : Type :=
  list Json -> QueryClient -> Completion * QueryClient.

(** The value of a property of an options object. *)
Inductive Value : Type :=
| VData (v : Json)
| VFun (f : Callback).

(** [UseMutationOptions<TData, TError, TVariables, TContext>], as the
    JavaScript object it is at run time. *)
Abbreviation UseMutationOptions := (gmap string Value).

(** [options?.onSuccess] *)
Definition onSuccessOf (options : option UseMutationOptions) : option Value :=
  options ≫= (.!! "onSuccess").

(** [Array.prototype.forEach] with a body that acts on the query client. *)
Definition forEach {A} (xs : list A) (body : A -> QueryClient -> QueryClient)
    (queryClient : QueryClient) : QueryClient :=
  foldl (fun qc x => body x qc) queryClient xs.

Definition notAFunction : Json := JStr "TypeError: options.onSuccess is not a function".

Inductive RelatedDomain : Type :=
| product
| customer
| customer_group
| order
| discount
| gift_card
| price_list.

#[export] Instance RelatedDomain_eq_dec : EqDecision RelatedDomain.
Proof. solve_decision. Defined.

(** [type RelatedDomains = { [key in RelatedDomain]?: boolean }]: the
    object's own properties in insertion order.  (A property set to
    [undefined] behaves like one set to [false].) *)
Definition RelatedDomains : Type := list (RelatedDomain * bool).

(** [Object.keys(relatedDomains)] *)
Definition Object_keys (relatedDomains : RelatedDomains) : list RelatedDomain :=
  relatedDomains.*1.

(** [relatedDomains[key]] *)
Fixpoint get (relatedDomains : RelatedDomains) (key : RelatedDomain)
  : option bool :=
  match relatedDomains with
  | [] => None
  | (k, flag) :: rest => if decide (k = key) then Some flag else get rest key
  end.

(** The kinds of request a mutation function sends through the client. *)
Inductive ClientRequest : Type :=
| admin_custom_post (path : string) (payload : Json)
| admin_custom_delete (path : string)
| admin_stockLocations_create (payload : Json)
| admin_stockLocations_update (id : string) (payload : Json)
| admin_stockLocations_delete (id : string)
| returns_create (data : Json).

(** What [useMutation(mutationFn, options)] registers. *)
Record UseMutationResult : Type := useMutation {
  mutationFn : Json -> ClientRequest;
  mutationOptions : option UseMutationOptions;
}.

(** react-query, when the mutation function has resolved:
    [await this.options.onSuccess?.(data, variables, context)]. *)
Definition mutationSucceeded (m : UseMutationResult) (args : list Json)
    (queryClient : QueryClient) : Completion * QueryClient :=
  match onSuccessOf (mutationOptions m) with
  | Some (VFun f) => f args queryClient
  | Some (VData JUndefined) | Some (VData JNull) | None =>
      (Normal JUndefined, queryClient)
  | Some (VData _) => (Throw notAFunction, queryClient)
  end.

(** A registered mutation invalidates [keys] on success, for a caller
    who passed [callerOptions]: when the mutation succeeds the keys are
    handed to the query client, in this order and nothing else, and only
    then the caller's own [onSuccess] runs (when there is none, or it is
    [undefined], the result is [undefined]). *)
Definition invalidatesOnSuccess (m : UseMutationResult)
    (callerOptions : option UseMutationOptions) (keys : list Json) : Prop :=
  ∀ args qc,
    (∀ g, onSuccessOf callerOptions = Some (VFun g) →
          mutationSucceeded m args qc = g args (qc ++ keys))
    ∧ (onSuccessOf callerOptions = None
       ∨ onSuccessOf callerOptions = Some (VData JUndefined) →
       mutationSucceeded m args qc = (Normal JUndefined, qc ++ keys)).


Section WithKeys.

(** The key sets of the admin domains, built by [queryKeysFactory]
    in the modules of those domains. *)
Variables (adminProductKeys adminCustomerKeys adminCustomerGroupKeys
           adminOrderKeys adminDiscountKeys adminGiftCardKeys
           adminPriceListKeys adminVariantKeys adminStockLocationsKeys
           : TQueryKey).

Definition invalidateRelatedDomain (domain : RelatedDomain)
    (queryClient : QueryClient) : QueryClient :=
  match domain with
  | product => invalidateQueries (JArr (all adminProductKeys)) queryClient
  | customer => invalidateQueries (JArr (all adminCustomerKeys)) queryClient
  | customer_group =>
      invalidateQueries (JArr (all adminCustomerGroupKeys)) queryClient
  | order => invalidateQueries (JArr (all adminOrderKeys)) queryClient
  | discount => invalidateQueries (JArr (all adminDiscountKeys)) queryClient
  | gift_card => invalidateQueries (JArr (all adminGiftCardKeys)) queryClient
  | price_list =>
      invalidateQueries (JArr (all adminPriceListKeys)) queryClient
  end.

(** [buildCustomOptions(queryClient, queryKey?, options?, relatedDomains?)].
    The query client is the state that the callbacks act on.
    [[
    return {
      ...options,
      onSuccess: (...args) => {
        if (queryKey !== undefined) {
          queryKey.forEach((key) => {
            queryClient.invalidateQueries({ queryKey: key as QueryKey })
          })
        }
        if (relatedDomains) {
          Object.keys(relatedDomains).forEach((key) => {
            if (relatedDomains[key as RelatedDomain]) {
              invalidateRelatedDomain(queryClient, key as RelatedDomain)
            }
          })
        }
        if (options?.onSuccess) {
          return options.onSuccess(...args)
        }
      },
    }
    ]] *)
Definition buildCustomOptions (queryKey : option QueryKey)
    (options : option UseMutationOptions)
    (relatedDomains : option RelatedDomains) : UseMutationOptions :=
  <["onSuccess" := VFun (fun args queryClient =>
      let qc1 :=
        match queryKey with
        | Some keys => forEach keys invalidateQueries queryClient
        | None => queryClient
        end in
      let qc2 :=
        match relatedDomains with
        | Some rd =>
            forEach (Object_keys rd)
              (fun key qc =>
                 match get rd key with
                 | Some true => invalidateRelatedDomain key qc
                 | _ => qc
                 end) qc1
        | None => qc1
        end in
      match onSuccessOf options with
      | Some (VFun f) => f args qc2
      | Some (VData v) =>
          if truthy v then (Throw notAFunction, qc2)
          else (Normal JUndefined, qc2)
      | None => (Normal JUndefined, qc2)
      end)]> (default ∅ options).

(** [useAdminCustomPost(path, queryKey, relatedDomains?, options?)] *)
Definition useAdminCustomPost (path : string) (queryKey : QueryKey)
    (relatedDomains : option RelatedDomains)
    (options : option UseMutationOptions) : UseMutationResult :=
  useMutation (fun payload => admin_custom_post path payload)
    (Some (buildCustomOptions (Some queryKey) options relatedDomains)).


(** [buildOptions(queryClient, queryKey?, options?)] of
    [hooks/utils/buildOptions] is not among the sources: the
    stock-location hooks below are written against any such helper. *)
Variable buildOptions :
  option QueryKey -> option UseMutationOptions -> UseMutationOptions.

(** [buildOptions(queryClient, [adminStockLocationsKeys.lists()], options)] *)
Definition useAdminCreateStockLocation
    (options : option UseMutationOptions) : UseMutationResult :=
  useMutation (fun payload => admin_stockLocations_create payload)
    (Some (buildOptions
             (Some [JArr (lists adminStockLocationsKeys)]) options)).

(** [buildOptions(queryClient, [adminStockLocationsKeys.lists(),
     adminStockLocationsKeys.detail(id)], options)] *)
Definition useAdminUpdateStockLocation (id : string)
    (options : option UseMutationOptions) : UseMutationResult :=
  useMutation (fun payload => admin_stockLocations_update id payload)
    (Some (buildOptions
             (Some [JArr (lists adminStockLocationsKeys);
                    JArr (detail adminStockLocationsKeys id)]) options)).

(** [buildOptions(queryClient, [adminStockLocationsKeys.lists(),
     adminStockLocationsKeys.detail(id), adminVariantKeys.all,
     adminProductKeys.lists()], options)] *)
Definition useAdminDeleteStockLocation (id : string)
    (options : option UseMutationOptions) : UseMutationResult :=
  useMutation (fun _ => admin_stockLocations_delete id)
    (Some (buildOptions
             (Some [JArr (lists adminStockLocationsKeys);
                    JArr (detail adminStockLocationsKeys id);
                    JArr (all adminVariantKeys);
                    JArr (lists adminProductKeys)]) options)).

End WithKeys.

(** Modelled from the spec: [buildOptions] of
    [hooks/utils/buildOptions], which the stock-location mutations
    call, is not among the sources.  The specification says no more than
    that the mutations are cache-aware.  The helper is modelled as the
    library has it: a caller's [onSuccess], when there is one, runs in
    place of the invalidation and its result is returned; without one,
    every key of the list is invalidated.
    [[
    return {
      ...options,
      onSuccess: (...args) => {
        if (options?.onSuccess) {
          return options.onSuccess(...args)
        }
        if (queryKey !== undefined) {
          queryKey.forEach((key) => {
            queryClient.invalidateQueries({ queryKey: key as QueryKey })
          })
        }
      },
    }
    ]] *)
Definition buildOptions_model (queryKey : option QueryKey)
    (options : option UseMutationOptions) : UseMutationOptions :=
  <["onSuccess" := VFun (fun args queryClient =>
      let invalidated :=
        match queryKey with
        | Some keys => forEach keys invalidateQueries queryClient
        | None => queryClient
        end in
      match onSuccessOf options with
      | Some (VFun f) => f args queryClient
      | Some (VData v) =>
          if truthy v then (Throw notAFunction, queryClient)
          else (Normal JUndefined, invalidated)
      | None => (Normal JUndefined, invalidated)
      end)]> (default ∅ options).

(** Sample keys, options and hooks to evaluate the definitions on. *)
Definition sampleCaller : Callback :=
  fun args qc => (Normal (JArr args), qc ++ [JStr "caller"]).

Definition sampleOptions : option UseMutationOptions :=
  Some (<["onSuccess" := VFun sampleCaller]> (<["retry" := VData (JNum 3)]> ∅)).

Definition sampleCustomPost : UseMutationResult :=
  useAdminCustomPost
    (sampleFactory "admin_products") (sampleFactory "admin_customers")
    (sampleFactory "admin_customer_groups") (sampleFactory "admin_orders")
    (sampleFactory "admin_discounts") (sampleFactory "admin_gift_cards")
    (sampleFactory "admin_price_lists")
    "/blog/posts" [JStr "posts"]
    (Some [(product, true); (order, false); (customer, true)])
    sampleOptions.

Definition sampleDeleteStockLocation : UseMutationResult :=
  useAdminDeleteStockLocation
    (sampleFactory "admin_products") (sampleFactory "admin_variants")
    (sampleFactory "admin_stock_locations") buildOptions_model "sloc_1" None.

Definition sampleDeleteStockLocationWithCaller : UseMutationResult :=
  useAdminDeleteStockLocation
    (sampleFactory "admin_products") (sampleFactory "admin_variants")
    (sampleFactory "admin_stock_locations") buildOptions_model "sloc_1"
    sampleOptions.

(** *** Query hooks *)

(** The kinds of request a query function sends through the client. *)
Inductive QueryRequest : Type :=
| admin_returnReasons_list
| admin_returnReasons_retrieve (id : string)
| swaps_retrieveByCartId (cartId : string).

(** What [useQuery] returns: the response under [data], once there is
    one, and the state of the query (status, isLoading, error, refetch
    and so on) under its other properties. *)
Record UseQueryResult : Type := {
  query_data : option (gmap string Json);
  query_rest : gmap string Value;
}.

(** [const ADMIN_RETURNS_REASONS_QUERY_KEY = `admin_return_reasons` as const] *)
Definition ADMIN_RETURNS_REASONS_QUERY_KEY : string := "admin_return_reasons".

Section QueryHooks.

(** [queryKeysFactory] of [hooks/utils] and react-query's
    [useQuery(queryKey, queryFn, options)]; what the latter returns
    depends on the cache and the network. *)
Variable queryKeysFactory : string -> TQueryKey.
Variable useQuery :
  QueryKey -> QueryRequest -> option (gmap string Value) -> UseQueryResult.

(** [export const adminReturnReasonKeys =
      queryKeysFactory(ADMIN_RETURNS_REASONS_QUERY_KEY)] *)
Definition adminReturnReasonKeys : TQueryKey :=
  queryKeysFactory ADMIN_RETURNS_REASONS_QUERY_KEY.

(** [[
    const { data, ...rest } = useQuery(
      adminReturnReasonKeys.lists(),
      () => client.admin.returnReasons.list(),
      options
    )
    return { ...data, ...rest } as const
    ]] *)
Definition useAdminReturnReasons (options : option (gmap string Value))
  : gmap string Value :=
  let r := useQuery (lists adminReturnReasonKeys) admin_returnReasons_list
             options in
  query_rest r ∪ (VData <$> default ∅ (query_data r)).

(** [[
    const { data, ...rest } = useQuery(
      adminReturnReasonKeys.detail(id),
      () => client.admin.returnReasons.retrieve(id),
      options
    )
    return { ...data, ...rest } as const
    ]] *)
Definition useAdminReturnReason (id : string)
    (options : option (gmap string Value)) : gmap string Value :=
  let r := useQuery (detail adminReturnReasonKeys id)
             (admin_returnReasons_retrieve id) options in
  query_rest r ∪ (VData <$> default ∅ (query_data r)).

(** [[
    const { data, ...rest } = useQuery(
      swapKey.cart(cartId),
      () => client.swaps.retrieveByCartId(cartId),
      options
    )
    return { ...data, ...rest } as const
    ]] *)
Definition useCartSwap (cartId : string)
    (options : option (gmap string Value)) : gmap string Value :=
  let r := useQuery (cart (swapKey queryKeysFactory) cartId)
             (swaps_retrieveByCartId cartId) options in
  query_rest r ∪ (VData <$> default ∅ (query_data r)).

End QueryHooks.

(** A [useQuery] to evaluate the query hooks on: a response that holds a
    swap and a [status] of its own, under a query that has succeeded. *)
Definition sampleUseQuery (queryKey : QueryKey) (request : QueryRequest)
    (options : option (gmap string Value)) : UseQueryResult :=
  {| query_data :=
       Some (<["swap" := JObj [("id", JStr "swap_1")]]>
               (<["status" := JNum 200]> ∅));
     query_rest :=
       <["status" := VData (JStr "success")]>
         (<["isLoading" := VData (JBool false)]> ∅) |}.

End Hooks.

(* ===================================================================== *)
(** ** The price-list service of the pricing module *)
(* ===================================================================== *)

Module PriceLists.

(** Modelled from the spec: the price-list service of the pricing module
    ([listPriceLists], [listAndCountPriceLists], [retrievePriceList],
    [deletePriceLists], [updatePriceLists]) is not among the sources;
    only its integration test is.  The specification describes it as a
    conventional relational filtering and CRUD layer over the ORM, so the
    model is a table of rows, a filter on ids, paging with [skip] and
    [take], a projection on [select], and the error messages the test
    quotes. *)
Record PriceList : Type := {
  id : string;
  starts_at : option Z;
  ends_at : option Z;
  number_rules : Z;
}.

(** The rows of the price-list table, in insertion order. *)
Definition Table : Type := list PriceList.

(** [FilterablePriceListProps]: [{ id?: string[] }]. *)
Record FilterablePriceListProps : Type := {
  filter_id : option (list string);
}.

(** [FindConfig]: [{ skip?, take?, select? }]. *)
Record FindConfig : Type := {
  skip : option nat;
  take : option nat;
  select : option (list string);
}.

Definition noFilter : FilterablePriceListProps := {| filter_id := None |}.
Definition noConfig : FindConfig :=
  {| skip := None; take := None; select := None |}.

(** [UpdatePriceListDTO]: the id and the fields to change. *)
Record UpdatePriceListDTO : Type := {
  update_id : string;
  update_starts_at : option Z;
  update_ends_at : option Z;
  update_number_rules : option Z;
}.

(** A price list as the service hands it out: its fields by name. *)
Definition PriceListDTO : Type := list (string * Json).

Definition dateJson (d : option Z) : Json :=
  match d with
  | Some t => JNum t
  | None => JNull
  end.

(** Modelled from the spec: the serialised form of a row of the
    price-list table (the entity is not among the sources). *)
Definition toDTO (p : PriceList) : PriceListDTO :=
  [ ("id", JStr (id p));
    ("starts_at", dateJson (starts_at p));
    ("ends_at", dateJson (ends_at p));
    ("number_rules", JNum (number_rules p)) ].

(** Modelled from the spec: the [select] option keeps the requested
    fields (the price-list service is not among the sources); the id,
    being the primary key, is kept whether it is requested or not, as
    the ORM behind the service does. *)
Definition selectFields (fields : option (list string)) (dto : PriceListDTO)
  : PriceListDTO :=
  match fields with
  | Some names => filter (fun kv => kv.1 = "id" ∨ kv.1 ∈ names) dto
  | None => dto
  end.

Definition hasId (wanted : string) (p : PriceList) : bool :=
  String.eqb (id p) wanted.

(** Modelled from the spec: a price list matches a filter when the filter
    names no ids or names its id (the price-list service is not among the
    sources). *)
Definition matches (filters : FilterablePriceListProps) (p : PriceList) : bool :=
  match filter_id filters with
  | Some ids => existsb (fun i => hasId i p) ids
  | None => true
  end.

(** Modelled from the spec: the rows that the query built from the
    filter finds, in table order (the price-list repository is not among
    the sources). *)
Definition matching (filters : FilterablePriceListProps) (table : Table)
  : list PriceList :=
  filter (λ p, matches filters p = true) table.

(** Modelled from the spec: the requested page, [skip] rows in and at
    most [take] rows long (the price-list service is not among the
    sources). *)
Definition page {A} (config : FindConfig) (rows : list A) : list A :=
  let rest := drop (default 0 (skip config)) rows in
  match take config with
  | Some n => firstn n rest
  | None => rest
  end.

(** Modelled from the spec: [listPriceLists(filters, config)] of the
    price-list service, which is not among the sources. *)
Definition listPriceLists (filters : FilterablePriceListProps)
    (config : FindConfig) (table : Table) : list PriceListDTO :=
  (λ p, selectFields (select config) (toDTO p))
    <$> page config (matching filters table).

(** Modelled from the spec: [listAndCountPriceLists(filters, config)] of
    the price-list service, which is not among the sources: the page and
    the number of matching price lists. *)
Definition listAndCountPriceLists (filters : FilterablePriceListProps)
    (config : FindConfig) (table : Table) : list PriceListDTO * nat :=
  (listPriceLists filters config table, length (matching filters table)).

(** The messages that the integration test expects. *)
Definition mustBeDefined : string :=
  dquote +:+ "priceListId" +:+ dquote +:+ " must be defined".

Definition wasNotFound (priceListId : string) : string :=
  "PriceList with id: " +:+ priceListId +:+ " was not found".

Definition notFound (priceListId : string) : string :=
  "PriceList with id " +:+ dquote +:+ priceListId +:+ dquote +:+ " not found".

(** Modelled from the spec: [retrievePriceList(id)] of the price-list
    service, which is not among the sources.  [None] is an [undefined]
    argument; [inl] carries the message of the error thrown. *)
Definition retrievePriceList (priceListId : option string) (table : Table)
  : string + PriceList :=
  match priceListId with
  | None => inl mustBeDefined
  | Some i =>
      match List.find (hasId i) table with
      | Some p => inr p
      | None => inl (wasNotFound i)
      end
  end.

(** Modelled from the spec: [deletePriceLists(ids)] of the price-list
    service, which is not among the sources. *)
Definition deletePriceLists (ids : list string) (table : Table) : Table :=
  filter (λ p, existsb (fun i => hasId i p) ids = false) table.

(** Modelled from the spec: an update overwrites the fields it gives
    (the price-list service is not among the sources). *)
Definition applyUpdate (u : UpdatePriceListDTO) (p : PriceList) : PriceList :=
  {| id := id p;
     starts_at := match update_starts_at u with Some d => Some d | None => starts_at p end;
     ends_at := match update_ends_at u with Some d => Some d | None => ends_at p end;
     number_rules := default (number_rules p) (update_number_rules u) |}.

(** Modelled from the spec: [updatePriceLists(data)] of the price-list
    service, which is not among the sources: every update names an
    existing price list, or the call fails and changes nothing. *)
Fixpoint updatePriceLists (data : list UpdatePriceListDTO) (table : Table)
  : string + Table :=
  match data with
  | [] => inr table
  | u :: rest =>
      if existsb (hasId (update_id u)) table
      then updatePriceLists rest
             ((λ p, if hasId (update_id u) p then applyUpdate u p else p)
                <$> table)
      else inl (notFound (update_id u))
  end.

(** The rows that the test's fixture ([createPriceLists]) inserts. *)
Definition fixture : Table :=
  [ {| id := "price-list-1"; starts_at := None; ends_at := None; number_rules := 0 |};
    {| id := "price-list-2"; starts_at := None; ends_at := None; number_rules := 0 |} ].

End PriceLists.

(* ===================================================================== *)
(** ** Admin route handlers *)
(* ===================================================================== *)

Module Routes.

(** The [select] and [relations] of the config given to a service. *)
Record FindConfig : Type := {
  select : list string;
  relations : list string;
}.

(** What a handler does, in the order it does it. *)
Inductive Effect : Type :=
| Validate (plain : gmap string Json)
| Resolve (registration : string)
| ListAndCount (selector : gmap string Json) (config : FindConfig)
| TransactionBegin
| ProductDelete (productId : Json)
| TransactionCommit
| TransactionRollback
| Status (code : Z)
| SendJson (body : Json).

(** A handler step: the effects performed, and a value or the exception
    thrown. *)
Definition M (A : Type) : Type := list Effect * (Json + A).

Definition ret {A} (a : A) : M A := ([], inr a).
Definition throw {A} (e : Json) : M A := ([], inl e).
Definition emit (e : Effect) : M unit := ([e], inr tt).

#[export] Instance M_ret : MRet M := fun A a => ret a.

#[export] Instance M_bind : MBind M := fun A B k m =>
  match m with
  | (trace, inl e) => (trace, inl e)
  | (trace, inr a) => let '(trace', r) := k a in (trace ++ trace', r)
  end.

Definition effects {A} (m : M A) : list Effect := m.1.
Definition outcome {A} (m : M A) : Json + A := m.2.

(** An Express request: path parameters and parsed query string. *)
Record Request : Type := {
  params : gmap string string;
  query : gmap string Json;
}.

(** [req.scope.resolve(name)] *)
Definition resolve (registration : string) : M unit :=
  emit (Resolve registration).

(** [res.status(code)] and [res.json(body)] *)
Definition res_status (code : Z) : M unit := emit (Status code).
Definition res_json (body : Json) : M unit := emit (SendJson body).

(** The decorators of class-validator and class-transformer that the
    request classes carry. *)
Inductive Decorator : Type :=
| IsOptional
| IsString
| IsBoolean
| Transform (f : Json -> Json).

Definition ClassSchema : Type := list (string * list Decorator).

Definition isNullish (v : Json) : bool :=
  match v with
  | JUndefined | JNull => true
  | _ => false
  end.

Definition isString (v : Json) : bool :=
  match v with
  | JStr _ => true
  | _ => false
  end.

Definition isBoolean (v : Json) : bool :=
  match v with
  | JBool _ => true
  | _ => false
  end.

Definition isOptionalDecorator (d : Decorator) : bool :=
  match d with
  | IsOptional => true
  | _ => false
  end.

(** The value of a property after its [@Transform]s. *)
Definition transformed (decorators : list Decorator) (v : Json) : Json :=
  foldl (fun acc d => match d with Transform f => f acc | _ => acc end)
        v decorators.

Definition check (d : Decorator) (v : Json) : bool :=
  match d with
  | IsString => isString v
  | IsBoolean => isBoolean v
  | IsOptional | Transform _ => true
  end.

(** [@IsOptional()] skips the other validators of a property whose value
    is [undefined] or [null]. *)
Definition validProperty (decorators : list Decorator) (v : Json) : bool :=
  (existsb isOptionalDecorator decorators && isNullish v)
  || forallb (fun d => check d v) decorators.

(** The instance of the class: the declared properties that the plain
    object has, transformed. *)
Definition toInstance (cls : ClassSchema) (plain : gmap string Json)
  : gmap string Json :=
  foldr (fun '(name, decorators) inst =>
           match plain !! name with
           | Some v => <[name := transformed decorators v]> inst
           | None => inst
           end) ∅ cls.

Definition property (inst : gmap string Json) (name : string) : Json :=
  default JUndefined (inst !! name).

Definition invalidData : Json := JStr "invalid_data".

(** Modelled from the spec: [validator] of [utils/validator] is not among
    the sources.  It turns the plain object into an instance of the class
    (applying [@Transform]) and checks every declared property against
    its decorators; it returns the instance, or throws when a check
    fails or when the plain object has a property that the class does
    not declare. *)
Definition validator_model (cls : ClassSchema) (plain : gmap string Json)
  : Json + gmap string Json :=
  let inst := toInstance cls plain in
  if bool_decide (map_Forall (fun name _ => name ∈ cls.*1) plain)
     && forallb (fun '(name, decorators) =>
                   validProperty decorators (property inst name)) cls
  then inr inst
  else inl invalidData.

(** What the handlers rely on in a validator: an instance that it
    returns holds, for every property that the class declares, the
    transformed value of the plain object, and that value passes the
    decorators of the property. *)
Definition enforcesDecorators
    (validator : ClassSchema -> gmap string Json -> Json + gmap string Json)
  : Prop :=
  ∀ cls plain inst,
    NoDup cls.*1 → validator cls plain = inr inst →
    ∀ name decorators, (name, decorators) ∈ cls →
      inst !! name = transformed decorators <$> plain !! name
      ∧ validProperty decorators (property inst name) = true.

Section ListShippingOptions.

(** [optionalBooleanMapper] of [utils/validators/is-boolean], a [Map]
    from query strings to optional booleans, and the [defaultFields] and
    [defaultRelations] of the shipping-option routes. *)
Variable optionalBooleanMapper : gmap string Json.
Variables defaultFields defaultRelations : list string.

(** [validator(typedClass, plain)] of [utils/validator], which is not
    among the sources: the instance of the class, or the error thrown. *)
Variable validator :
  ClassSchema -> gmap string Json -> Json + gmap string Json.

(** [shippingOptionService.listAndCount(selector, config)]: the options
    found and their count, or the error thrown. *)
Variable shippingOptionService_listAndCount :
  gmap string Json -> FindConfig -> Json + (list Json * Z).

(** [optionalBooleanMapper.get(value)] *)
Definition optionalBooleanMapper_get (value : Json) : Json :=
  match value with
  | JStr s => default JUndefined (optionalBooleanMapper !! s)
  | _ => JUndefined
  end.

(** [[
    export class AdminGetShippingOptionsParams {
      @IsOptional() @IsString()
      region_id?: string

      @IsOptional() @IsBoolean()
      @Transform(({ value }) => optionalBooleanMapper.get(value))
      is_return?: boolean

      @IsOptional() @IsBoolean()
      @Transform(({ value }) => optionalBooleanMapper.get(value))
      admin_only?: boolean
    }
    ]] *)
Definition AdminGetShippingOptionsParams : ClassSchema :=
  [ ("region_id", [IsOptional; IsString]);
    ("is_return", [IsOptional; IsBoolean; Transform optionalBooleanMapper_get]);
    ("admin_only", [IsOptional; IsBoolean; Transform optionalBooleanMapper_get]) ].

Definition await_validator (cls : ClassSchema) (plain : gmap string Json)
  : M (gmap string Json) :=
  ([Validate plain], validator cls plain).

Definition listAndCount (selector : gmap string Json) (config : FindConfig)
  : M (list Json * Z) :=
  ([ListAndCount selector config],
   shippingOptionService_listAndCount selector config).

(** [[
    export default async (req, res) => {
      const validatedParams = await validator(
        AdminGetShippingOptionsParams,
        req.query
      )
      const optionService = req.scope.resolve("shippingOptionService")
      const [data, count] = await optionService.listAndCount(validatedParams, {
        select: defaultFields,
        relations: defaultRelations,
      })
      res.status(200).json({ shipping_options: data, count })
    }
    ]] *)
Definition listShippingOptions (req : Request) : M unit :=
  validatedParams ← await_validator AdminGetShippingOptionsParams (query req);
  resolve "shippingOptionService" ;;
  '(data, count) ← listAndCount validatedParams
      {| select := defaultFields; relations := defaultRelations |};
  res_status 200 ;;
  res_json (JObj [("shipping_options", JArr data); ("count", JNum count)]).

End ListShippingOptions.

Section DeleteProduct.

(** [productService.withTransaction(manager).delete(id)]: [None] when it
    completes, [Some e] when it throws [e]. *)
Variable productService_delete : Json -> option Json.

(** [manager.transaction(run)]: [run] between the start of a transaction
    and its commit, or its rollback when [run] throws. *)
Definition transaction {A} (run : M A) : M A :=
  emit TransactionBegin ;;
  match run with
  | (trace, inl e) => ((trace ++ [TransactionRollback]), inl e)
  | (trace, inr a) => ((trace ++ [TransactionCommit]), inr a)
  end.

Definition withTransaction_delete (productId : Json) : M unit :=
  ([ProductDelete productId],
   match productService_delete productId with
   | Some e => inl e
   | None => inr tt
   end).

(** [const { id } = req.params] *)
Definition paramId (req : Request) : Json :=
  match params req !! "id" with
  | Some s => JStr s
  | None => JUndefined
  end.

(** [[
    export default async (req, res) => {
      const { id } = req.params
      const productService = req.scope.resolve("productService")
      const manager = req.scope.resolve("manager")
      await manager.transaction(async (transactionManager) => {
        return await productService.withTransaction(transactionManager).delete(id)
      })
      res.json({ id, object: "product", deleted: true })
    }
    ]] *)
Definition deleteProduct (req : Request) : M unit :=
  let id := paramId req in
  resolve "productService" ;;
  resolve "manager" ;;
  transaction (withTransaction_delete id) ;;
  res_json (JObj [("id", id); ("object", JStr "product"); ("deleted", JBool true)]).

End DeleteProduct.

(** A sample mapper, service and request to evaluate the handlers on. *)
Definition sampleMapper : gmap string Json :=
  <["true" := JBool true]> (<["false" := JBool false]>
    (<["null" := JNull]> (<["undefined" := JUndefined]> ∅))).

Definition sampleListAndCount (selector : gmap string Json) (config : FindConfig)
  : Json + (list Json * Z) :=
  inr ([JObj [("id", JStr "so_1")]], 1%Z).

Definition sampleListRequest : Request :=
  {| params := ∅;
     query := <["region_id" := JStr "reg_1"]> (<["is_return" := JStr "true"]> ∅) |}.

Definition sampleUnmappedFlagRequest : Request :=
  {| params := ∅; query := <["is_return" := JStr "yes"]> ∅ |}.

Definition sampleDeleteRequest : Request :=
  {| params := <["id" := "prod_1"]> ∅; query := ∅ |}.

(** A service that fails, to evaluate the handlers on. *)
Definition sampleFailingListAndCount (selector : gmap string Json)
    (config : FindConfig) : Json + (list Json * Z) :=
  inl (JStr "connection lost").

End Routes.

(* ===================================================================== *)
(** * Properties *)
(* ===================================================================== *)

Import Hooks.

(** ** Query keys *)

Example swapKey_cart_sample :
  cart (swapKey sampleFactory) "cart_1"
  = [JStr "swaps"; JStr "cart"; JStr "cart_1"].
Proof. reflexivity. Qed.

(** C10. The cart-scoped swap key is the domain key [swapKey.all]
    extended by ["cart"] and the cart id; hence the domain key is a
    prefix of it, and two distinct cart ids give distinct keys. *)
Theorem swapKey_cart_extends_all
    (queryKeysFactory : string -> TQueryKey) (cartId cartId' : string) :
  let k := swapKey queryKeysFactory in
  cart k cartId = all k ++ [JStr "cart"; JStr cartId]
  ∧ all k `prefix_of` cart k cartId
  ∧ (cartId ≠ cartId' → cart k cartId ≠ cart k cartId').
Proof.
  intros k. split; [reflexivity|]. split.
  - exists [JStr "cart"; JStr cartId]. reflexivity.
  - intros Hne Heq. apply Hne. cbn in Heq.
    apply app_inv_head in Heq. congruence.
Qed.

(** Two carts on the sample factory. *)
Lemma swapKey_cart_extends_all_witness :
  cart (swapKey sampleFactory) "cart_1" ≠ cart (swapKey sampleFactory) "cart_2".
Proof.
  apply (proj2 (proj2 (swapKey_cart_extends_all sampleFactory "cart_1" "cart_2"))).
  discriminate.
Defined.

(** ** Mutation hooks *)

Lemma forEach_invalidateQueries (keys : list Json) (qc : QueryClient) :
  forEach keys invalidateQueries qc = qc ++ keys.
Proof.
  unfold forEach. revert qc.
  induction keys as [|key keys IH]; intros qc; cbn [foldl].
  - by rewrite app_nil_r.
  - rewrite IH. unfold invalidateQueries. by rewrite <- app_assoc.
Qed.

Lemma get_Some_keys (rd : RelatedDomains) (d : RelatedDomain) (flag : bool) :
  get rd d = Some flag → d ∈ Object_keys rd.
Proof.
  unfold Object_keys. induction rd as [|[k v] rest IH]; simpl; [done|].
  destruct (decide (k = d)) as [->|Hne]; intros H.
  - apply list_elem_of_here.
  - apply list_elem_of_further. by apply IH.
Qed.

Section HooksFacts.

Variables (adminProductKeys adminCustomerKeys adminCustomerGroupKeys
           adminOrderKeys adminDiscountKeys adminGiftCardKeys
           adminPriceListKeys adminVariantKeys adminStockLocationsKeys
           : TQueryKey).

Let domainKeys (d : RelatedDomain) : TQueryKey :=
  match d with
  | product => adminProductKeys
  | customer => adminCustomerKeys
  | customer_group => adminCustomerGroupKeys
  | order => adminOrderKeys
  | discount => adminDiscountKeys
  | gift_card => adminGiftCardKeys
  | price_list => adminPriceListKeys
  end.

Let invalidateDomain :=
  invalidateRelatedDomain adminProductKeys adminCustomerKeys
    adminCustomerGroupKeys adminOrderKeys adminDiscountKeys adminGiftCardKeys
    adminPriceListKeys.

Let customOptions :=
  buildCustomOptions adminProductKeys adminCustomerKeys
    adminCustomerGroupKeys adminOrderKeys adminDiscountKeys adminGiftCardKeys
    adminPriceListKeys.

Lemma invalidateRelatedDomain_all (d : RelatedDomain) (qc : QueryClient) :
  invalidateDomain d qc = qc ++ [JArr (all (domainKeys d))].
Proof. by destruct d. Qed.

Lemma forEach_relatedDomains (rd : RelatedDomains) (ds : list RelatedDomain)
    (qc : QueryClient) :
  forEach ds
    (fun key qc => match get rd key with
                   | Some true => invalidateDomain key qc
                   | _ => qc
                   end) qc
  = qc ++ ((λ d, JArr (all (domainKeys d)))
             <$> filter (λ d, get rd d = Some true) ds).
Proof.
  revert qc. induction ds as [|d ds IH]; intros qc.
  - by rewrite app_nil_r.
  - unfold forEach in *. cbn [foldl]. rewrite IH, filter_cons.
    destruct (decide (get rd d = Some true)) as [Hd|Hd].
    + rewrite Hd, invalidateRelatedDomain_all, fmap_cons, <- app_assoc. done.
    + destruct (get rd d) as [[|]|]; done.
Qed.

(** The query client once [onSuccess] has issued its invalidations. *)
Let invalidated (queryKey : option QueryKey) (rd : option RelatedDomains)
    (qc : QueryClient) : QueryClient :=
  qc ++ default [] queryKey
     ++ ((λ d, JArr (all (domainKeys d)))
           <$> filter (λ d, get (default [] rd) d = Some true)
                      (Object_keys (default [] rd))).

Lemma buildCustomOptions_onSuccess (queryKey : option QueryKey)
    (options : option UseMutationOptions) (rd : option RelatedDomains) :
  ∃ f, customOptions queryKey options rd !! "onSuccess" = Some (VFun f)
       ∧ ∀ args qc,
           f args qc =
           match onSuccessOf options with
           | Some (VFun g) => g args (invalidated queryKey rd qc)
           | Some (VData v) =>
               (if truthy v then Throw notAFunction else Normal JUndefined,
                invalidated queryKey rd qc)
           | None => (Normal JUndefined, invalidated queryKey rd qc)
           end.
Proof.
  eexists. split.
  - unfold customOptions, buildCustomOptions. apply lookup_insert_eq.
  - intros args qc. cbv beta zeta. fold invalidateDomain.
    replace (match rd with
             | Some rd0 => forEach (Object_keys rd0) _ _
             | None => _
             end) with (invalidated queryKey rd qc).
    + destruct (onSuccessOf options) as [[v|g]|]; [|done..].
      by destruct (truthy v).
    + unfold invalidated.
      destruct rd as [rd0|], queryKey as [keys|]; simpl;
        rewrite ?forEach_relatedDomains, ?forEach_invalidateQueries,
                ?app_nil_r, <- ?app_assoc; done.
Qed.

Lemma buildCustomOptions_invalidatesOnSuccess (fn : Json → ClientRequest)
    (queryKey : option QueryKey) (options : option UseMutationOptions)
    (rd : option RelatedDomains) :
  invalidatesOnSuccess
    (useMutation fn (Some (customOptions queryKey options rd))) options
    (default [] queryKey
       ++ ((λ d, JArr (all (domainKeys d)))
             <$> filter (λ d, get (default [] rd) d = Some true)
                        (Object_keys (default [] rd)))).
Proof.
  destruct (buildCustomOptions_onSuccess queryKey options rd) as (f & Hf & Hrun).
  intros args qc.
  assert (Hm : mutationSucceeded
                 (useMutation fn (Some (customOptions queryKey options rd)))
                 args qc = f args qc).
  { unfold mutationSucceeded. cbn [mutationOptions onSuccessOf mbind option_bind].
    by rewrite Hf. }
  rewrite Hm, Hrun. split.
  - intros g Hg. by rewrite Hg.
  - intros [Hnone|Hundef]; [by rewrite Hnone | by rewrite Hundef].
Qed.

(** C1. A mutation registered with the options of [buildCustomOptions],
    given a list of query keys and a related-domains object: when it
    succeeds, every key of the list is invalidated, then the [all] key of
    every related domain whose flag is [true] (the domain's own key set:
    products for [product], customers for [customer], and so on), and
    only then the caller's [onSuccess] runs. *)
Theorem buildCustomOptions_invalidates_on_success
    (fn : Json → ClientRequest) (keys : QueryKey) (rd : RelatedDomains)
    (options : option UseMutationOptions) :
  let m := useMutation fn (Some (customOptions (Some keys) options (Some rd))) in
  let domainKey := λ d, JArr (all (domainKeys d)) in
  let flagged := filter (λ d, get rd d = Some true) (Object_keys rd) in
  invalidatesOnSuccess m options (keys ++ (domainKey <$> flagged))
  ∧ (∀ d, d ∈ flagged ↔ get rd d = Some true).
Proof.
  intros m domainKey flagged. split.
  - apply (buildCustomOptions_invalidatesOnSuccess fn (Some keys) options (Some rd)).
  - intros d. unfold flagged. rewrite list_elem_of_filter. split.
    + by intros [H _].
    + intros H. split; [done|]. by eapply get_Some_keys.
Qed.

(** C9. [buildCustomOptions] replaces [onSuccess] and nothing else: every
    other field of the returned options is the caller's, and the new
    [onSuccess] returns what the caller's [onSuccess] returns on the same
    arguments, [undefined] when the caller has none. *)
Theorem buildCustomOptions_changes_only_onSuccess
    (queryKey : option QueryKey) (options : option UseMutationOptions)
    (rd : option RelatedDomains) :
  let r := customOptions queryKey options rd in
  (∀ field : string, field ≠ "onSuccess" →
     r !! field = default ∅ options !! field)
  ∧ ∃ f, r !! "onSuccess" = Some (VFun f)
      ∧ (∀ g args qc, onSuccessOf options = Some (VFun g) →
           (f args qc).1 = (g args (invalidated queryKey rd qc)).1)
      ∧ (∀ args qc,
           onSuccessOf options = None
           ∨ onSuccessOf options = Some (VData JUndefined) →
           (f args qc).1 = Normal JUndefined).
Proof.
  intros r. split.
  - intros field Hfield. unfold r, customOptions, buildCustomOptions.
    by rewrite lookup_insert_ne.
  - destruct (buildCustomOptions_onSuccess queryKey options rd) as (f & Hf & Hrun).
    exists f. split; [exact Hf|]. split.
    + intros g args qc Hg. by rewrite Hrun, Hg.
    + intros args qc [Hnone|Hundef]; rewrite Hrun;
        [by rewrite Hnone | by rewrite Hundef].
Qed.

Lemma buildCustomOptions_keys_only (fn : Json → ClientRequest)
    (keys : QueryKey) (options : option UseMutationOptions) :
  invalidatesOnSuccess
    (useMutation fn (Some (customOptions (Some keys) options None)))
    options keys.
Proof.
  pose proof (buildCustomOptions_invalidatesOnSuccess
                fn (Some keys) options None) as H.
  cbn in H. by rewrite app_nil_r in H.
Qed.

Lemma buildOptions_model_succeeded (fn : Json → ClientRequest)
    (keys : QueryKey) (options : option UseMutationOptions)
    (args : list Json) (qc : QueryClient) :
  mutationSucceeded
    (useMutation fn (Some (buildOptions_model (Some keys) options))) args qc
  = match onSuccessOf options with
    | Some (VFun g) => g args qc
    | Some (VData v) =>
        if truthy v then (Throw notAFunction, qc)
        else (Normal JUndefined, qc ++ keys)
    | None => (Normal JUndefined, qc ++ keys)
    end.
Proof.
  unfold mutationSucceeded.
  cbn [mutationOptions onSuccessOf mbind option_bind]. unfold buildOptions_model.
  rewrite lookup_insert_eq. cbv zeta. by rewrite forEach_invalidateQueries.
Qed.

Lemma buildOptions_model_without_onSuccess (fn : Json → ClientRequest)
    (keys : QueryKey) (options : option UseMutationOptions)
    (args : list Json) (qc : QueryClient) :
  onSuccessOf options = None ∨ onSuccessOf options = Some (VData JUndefined) →
  mutationSucceeded
    (useMutation fn (Some (buildOptions_model (Some keys) options))) args qc
  = (Normal JUndefined, qc ++ keys).
Proof.
  intros [Hnone|Hundef]; rewrite buildOptions_model_succeeded;
    [by rewrite Hnone | by rewrite Hundef].
Qed.

(** C8, as the helper has it.  Deleting a stock location, for a caller
    who passes no [onSuccess]: on success the hook invalidates the
    stock-location list keys, the detail key of that id, the whole
    variant key set and the product list keys, these four and no other.
    A caller's [onSuccess] runs in place of the invalidation. *)
Theorem useAdminDeleteStockLocation_invalidates (id : string)
    (options : option UseMutationOptions) (args : list Json)
    (qc : QueryClient) :
  let m :=
    useAdminDeleteStockLocation adminProductKeys adminVariantKeys
      adminStockLocationsKeys buildOptions_model id options in
  (onSuccessOf options = None ∨ onSuccessOf options = Some (VData JUndefined) →
   mutationSucceeded m args qc
   = (Normal JUndefined,
      qc ++ [ JArr (lists adminStockLocationsKeys);
              JArr (detail adminStockLocationsKeys id);
              JArr (all adminVariantKeys);
              JArr (lists adminProductKeys) ]))
  ∧ (∀ g, onSuccessOf options = Some (VFun g) →
       mutationSucceeded m args qc = g args qc).
Proof.
  intros m. unfold m, useAdminDeleteStockLocation. split.
  - apply buildOptions_model_without_onSuccess.
  - intros g Hg. by rewrite buildOptions_model_succeeded, Hg.
Qed.

(** [buildOptions] of [hooks/utils/buildOptions], which is not among the
    sources: for a caller without [onSuccess] it invalidates, on
    success, the keys it is given. *)
Variable buildOptions :
  option QueryKey → option UseMutationOptions → UseMutationOptions.

Hypothesis buildOptions_without_onSuccess :
  ∀ (fn : Json → ClientRequest) keys options args qc,
    onSuccessOf options = None
    ∨ onSuccessOf options = Some (VData JUndefined) →
    mutationSucceeded
      (useMutation fn (Some (buildOptions (Some keys) options))) args qc
    = (Normal JUndefined, qc ++ keys).


End HooksFacts.

(** *** The hooks on sample keys *)

Example sampleCustomPost_succeeded :
  mutationSucceeded sampleCustomPost [JStr "post_1"] []
  = (Normal (JArr [JStr "post_1"]),
     [ JStr "posts"; JArr [JStr "admin_products"];
       JArr [JStr "admin_customers"]; JStr "caller" ]).
Proof. vm_compute. reflexivity. Qed.

(** A custom POST hook with two flagged domains and a caller's
    [onSuccess]: the caller runs once the three keys are invalidated. *)
Lemma buildCustomOptions_invalidates_on_success_witness :
  mutationSucceeded sampleCustomPost [JStr "post_1"] []
  = sampleCaller [JStr "post_1"]
      [ JStr "posts"; JArr [JStr "admin_products"];
        JArr [JStr "admin_customers"] ].
Proof.
  apply (proj1 (proj1 (buildCustomOptions_invalidates_on_success
                  (sampleFactory "admin_products") (sampleFactory "admin_customers")
                  (sampleFactory "admin_customer_groups") (sampleFactory "admin_orders")
                  (sampleFactory "admin_discounts") (sampleFactory "admin_gift_cards")
                  (sampleFactory "admin_price_lists")
                  (fun payload => admin_custom_post "/blog/posts" payload)
                  [JStr "posts"]
                  [(product, true); (order, false); (customer, true)]
                  sampleOptions) [JStr "post_1"] [])).
  vm_compute. reflexivity.
Defined.

(** The caller's [retry] is in the options that come back. *)
Lemma buildCustomOptions_changes_only_onSuccess_witness :
  buildCustomOptions
    (sampleFactory "admin_products") (sampleFactory "admin_customers")
    (sampleFactory "admin_customer_groups") (sampleFactory "admin_orders")
    (sampleFactory "admin_discounts") (sampleFactory "admin_gift_cards")
    (sampleFactory "admin_price_lists")
    (Some [JStr "posts"]) sampleOptions (Some [(product, true)]) !! "retry"
  = Some (VData (JNum 3)).
Proof.
  rewrite (proj1 (buildCustomOptions_changes_only_onSuccess
                    (sampleFactory "admin_products") (sampleFactory "admin_customers")
                    (sampleFactory "admin_customer_groups") (sampleFactory "admin_orders")
                    (sampleFactory "admin_discounts") (sampleFactory "admin_gift_cards")
                    (sampleFactory "admin_price_lists")
                    (Some [JStr "posts"]) sampleOptions (Some [(product, true)]))
                 "retry").
  - vm_compute. reflexivity.
  - discriminate.
Defined.

(** Deleting the stock location [sloc_1], on the sample keys, for a
    caller without options. *)
Lemma useAdminDeleteStockLocation_invalidates_witness :
  mutationSucceeded sampleDeleteStockLocation [] []
  = (Normal JUndefined,
     [ JArr [JStr "admin_stock_locations"; JStr "list"];
       JArr [JStr "admin_stock_locations"; JStr "detail"; JStr "sloc_1"];
       JArr [JStr "admin_variants"];
       JArr [JStr "admin_products"; JStr "list"] ]).
Proof.
  apply (proj1 (useAdminDeleteStockLocation_invalidates
                  (sampleFactory "admin_products") (sampleFactory "admin_variants")
                  (sampleFactory "admin_stock_locations") "sloc_1" None [] [])).
  left. reflexivity.
Defined.

(** C8, as stated, fails for a caller who passes an [onSuccess]: after a
    successful deletion of [sloc_1] only the caller's callback has run,
    and none of the four keys has been invalidated. *)
Lemma useAdminDeleteStockLocation_caller_onSuccess :
  (mutationSucceeded sampleDeleteStockLocationWithCaller [] []).2
  = [JStr "caller"]
  ∧ ¬ ∃ key,
        key ∈ [ JArr [JStr "admin_stock_locations"; JStr "list"];
                JArr [JStr "admin_stock_locations"; JStr "detail"; JStr "sloc_1"];
                JArr [JStr "admin_variants"];
                JArr [JStr "admin_products"; JStr "list"] ]
        ∧ key ∈ (mutationSucceeded sampleDeleteStockLocationWithCaller [] []).2.
Proof.
  split; [by vm_compute|].
  intros (key & Hkey & Hin). vm_compute in Hin.
  apply elem_of_cons in Hin as [->|Hin]; [|by apply not_elem_of_nil in Hin].
  repeat (apply elem_of_cons in Hkey as [Hkey|Hkey]; [discriminate|]).
  by apply not_elem_of_nil in Hkey.
Qed.



(** ** Price lists *)

Import PriceLists.

(** The expectations of the integration test, on the fixture. *)
Example test_list :
  map (fun dto => dto !! 0) (listPriceLists noFilter noConfig fixture)
  = [Some ("id", JStr "price-list-1"); Some ("id", JStr "price-list-2")].
Proof. reflexivity. Qed.

Example test_listAndCount_filtered :
  let '(rows, count) :=
    listAndCountPriceLists {| filter_id := Some ["price-list-1"] |} noConfig fixture in
  count = 1 ∧ map (fun dto => dto !! 0) rows = [Some ("id", JStr "price-list-1")].
Proof. split; reflexivity. Qed.

Example test_listAndCount_skip_take :
  let '(rows, count) :=
    listAndCountPriceLists noFilter
      {| skip := Some 1; take := Some 1; select := None |} fixture in
  count = 2 ∧ map (fun dto => dto !! 0) rows = [Some ("id", JStr "price-list-2")].
Proof. split; reflexivity. Qed.

Example test_listAndCount_select :
  listAndCountPriceLists noFilter
    {| skip := None; take := Some 1; select := Some ["id"] |} fixture
  = ([[("id", JStr "price-list-1")]], 2).
Proof. vm_compute. reflexivity. Qed.

Example test_retrieve_missing :
  retrievePriceList (Some "does-not-exist") fixture
  = inl "PriceList with id: does-not-exist was not found".
Proof. reflexivity. Qed.

Example test_retrieve_undefined :
  retrievePriceList None fixture
  = inl (dquote +:+ "priceListId" +:+ dquote +:+ " must be defined").
Proof. reflexivity. Qed.

Example test_delete :
  length (listPriceLists {| filter_id := Some ["price-list-1"] |} noConfig
            (deletePriceLists ["price-list-1"] fixture)) = 0.
Proof. reflexivity. Qed.

Example test_update_missing :
  updatePriceLists
    [{| update_id := "does-not-exist"; update_starts_at := None;
        update_ends_at := None; update_number_rules := Some 2%Z |}] fixture
  = inl ("PriceList with id " +:+ dquote +:+ "does-not-exist" +:+ dquote
           +:+ " not found").
Proof. reflexivity. Qed.

Example test_update_starts_at :
  match updatePriceLists
          [{| update_id := "price-list-2";
              update_starts_at := Some 1700000000000%Z;
              update_ends_at := None; update_number_rules := None |}] fixture
  with
  | inr table' =>
      match retrievePriceList (Some "price-list-2") table' with
      | inr p => starts_at p = Some 1700000000000%Z
      | inl _ => False
      end
  | inl _ => False
  end.
Proof. reflexivity. Qed.

Lemma hasId_true (i : string) (p : PriceList) : hasId i p = true ↔ id p = i.
Proof. unfold hasId. apply String.eqb_eq. Qed.

Lemma hasId_false (i : string) (p : PriceList) : hasId i p = false ↔ id p ≠ i.
Proof. unfold hasId. apply String.eqb_neq. Qed.

Lemma find_hasId_Some (i : string) (table : Table) (p : PriceList) :
  List.find (hasId i) table = Some p → id p = i ∧ p ∈ table.
Proof.
  intros H. apply find_some in H as [Hin Hid]. split.
  - by apply hasId_true.
  - by apply list_elem_of_In.
Qed.

Lemma find_hasId_None (i : string) (table : Table) :
  List.find (hasId i) table = None ↔ ∀ p, p ∈ table → id p ≠ i.
Proof.
  induction table as [|q table IH]; simpl.
  - split; [|done]. intros _ p Hp. by apply not_elem_of_nil in Hp.
  - destruct (hasId i q) eqn:Hq.
    + split; [done|]. intros H. apply hasId_true in Hq.
      exfalso. apply (H q); [apply list_elem_of_here | done].
    + rewrite IH. apply hasId_false in Hq. split.
      * intros H p Hp. apply elem_of_cons in Hp as [->|Hp]; auto.
      * intros H p Hp. apply H. by apply list_elem_of_further.
Qed.

Lemma existsb_hasId_false (i : string) (table : Table) :
  existsb (hasId i) table = false ↔ ∀ p, p ∈ table → id p ≠ i.
Proof.
  induction table as [|q table IH]; simpl.
  - split; [|done]. intros _ p Hp. by apply not_elem_of_nil in Hp.
  - rewrite orb_false_iff, IH, hasId_false. split.
    + intros [Hq H] p Hp. apply elem_of_cons in Hp as [->|Hp]; auto.
    + intros H. split.
      * apply H, list_elem_of_here.
      * intros p Hp. by apply H, list_elem_of_further.
Qed.

Lemma existsb_hasId_update (i : string) (u : UpdatePriceListDTO) (table : Table) :
  existsb (hasId i)
    ((λ p, if hasId (update_id u) p then applyUpdate u p else p) <$> table)
  = existsb (hasId i) table.
Proof.
  induction table as [|q table IH]; [done|].
  rewrite fmap_cons. cbn [existsb]. rewrite IH. f_equal.
  by destruct (hasId (update_id u) q).
Qed.

Lemma updatePriceLists_missing (data : list UpdatePriceListDTO) (table : Table)
    (u : UpdatePriceListDTO) :
  u ∈ data → existsb (hasId (update_id u)) table = false →
  ∃ u', u' ∈ data
        ∧ existsb (hasId (update_id u')) table = false
        ∧ updatePriceLists data table = inl (notFound (update_id u')).
Proof.
  revert table. induction data as [|v data IH]; intros table Hu Hmissing.
  - by apply not_elem_of_nil in Hu.
  - simpl. destruct (existsb (hasId (update_id v)) table) eqn:Hv.
    + apply elem_of_cons in Hu as [->|Hu]; [congruence|].
      destruct (IH ((λ p, if hasId (update_id v) p
                          then applyUpdate v p else p) <$> table) Hu)
        as (u' & Hu' & Hmiss' & Hrun).
      { by rewrite existsb_hasId_update. }
      exists u'. rewrite existsb_hasId_update in Hmiss'.
      split; [by apply list_elem_of_further|]. by split.
    + exists v. split; [apply list_elem_of_here|]. by split.
Qed.

(** C3. [retrievePriceList] returns the price list with the given id
    when there is one, fails with ["PriceList with id: <id> was not
    found"] when there is none, and with the message that [priceListId]
    must be defined when the id is [undefined]; [updatePriceLists] fails
    with the message that the price list with the quoted id is not found
    when an update names an id that does not exist. *)
Theorem retrievePriceList_updatePriceLists_errors (table : Table) (i : string) :
  ((∃ p, p ∈ table ∧ id p = i) →
     ∃ q, retrievePriceList (Some i) table = inr q ∧ id q = i ∧ q ∈ table)
  ∧ ((∀ p, p ∈ table → id p ≠ i) →
       retrievePriceList (Some i) table
       = inl ("PriceList with id: " +:+ i +:+ " was not found"))
  ∧ retrievePriceList None table
    = inl (dquote +:+ "priceListId" +:+ dquote +:+ " must be defined")
  ∧ (∀ data u, u ∈ data → (∀ p, p ∈ table → id p ≠ update_id u) →
       ∃ u', u' ∈ data ∧ (∀ p, p ∈ table → id p ≠ update_id u')
             ∧ updatePriceLists data table
               = inl ("PriceList with id " +:+ dquote +:+ update_id u'
                        +:+ dquote +:+ " not found")).
Proof.
  split; [|split; [|split]].
  - intros (p & Hp & Hid). unfold retrievePriceList.
    destruct (List.find (hasId i) table) as [q|] eqn:Hfind.
    + exists q. split; [done|]. by apply find_hasId_Some.
    + exfalso. by apply (proj1 (find_hasId_None i table) Hfind p).
  - intros Hnone. unfold retrievePriceList.
    by rewrite (proj2 (find_hasId_None i table) Hnone).
  - reflexivity.
  - intros data u Hu Hnone.
    destruct (updatePriceLists_missing data table u Hu) as (u' & Hu' & Hm & Hrun).
    { by apply existsb_hasId_false. }
    exists u'. split; [done|]. split; [by apply existsb_hasId_false|done].
Qed.

(** Retrieving an existing and a missing price list of the fixture. *)
Lemma retrievePriceList_updatePriceLists_errors_witness :
  (∃ q, retrievePriceList (Some "price-list-1") fixture = inr q
        ∧ id q = "price-list-1" ∧ q ∈ fixture)
  ∧ retrievePriceList (Some "does-not-exist") fixture
    = inl "PriceList with id: does-not-exist was not found".
Proof.
  split.
  - apply (proj1 (retrievePriceList_updatePriceLists_errors fixture "price-list-1")).
    eexists. split; [apply list_elem_of_here | reflexivity].
  - apply (proj1 (proj2 (retrievePriceList_updatePriceLists_errors
                           fixture "does-not-exist"))).
    intros p Hp. vm_compute in Hp.
    repeat (apply elem_of_cons in Hp as [->|Hp]; [discriminate|]).
    by apply not_elem_of_nil in Hp.
Defined.







(** C5. Once [deletePriceLists([id])] has run for an existing id,
    [listPriceLists({ id: [id] })] is empty. *)
Theorem deletePriceLists_then_list_by_id
    (table : Table) (i : string) (config : FindConfig) :
  (∃ p, p ∈ table ∧ id p = i) →
  listPriceLists {| filter_id := Some [i] |} config
    (deletePriceLists [i] table) = [].
Proof.
  intros _. unfold listPriceLists.
  assert (Hnone : matching {| filter_id := Some [i] |}
                    (deletePriceLists [i] table) = []).
  { apply elem_of_nil_inv. intros p Hp.
    unfold matching, deletePriceLists in Hp.
    apply list_elem_of_filter in Hp as [Hmatch Hp].
    apply list_elem_of_filter in Hp as [Hkept _].
    unfold matches in Hmatch. simpl in Hmatch, Hkept. congruence. }
  rewrite Hnone. unfold page. rewrite drop_nil.
  destruct (take config); by rewrite ?take_nil.
Qed.

(** Deleting [price-list-1] from the fixture. *)
Lemma deletePriceLists_then_list_by_id_witness :
  listPriceLists {| filter_id := Some ["price-list-1"] |} noConfig
    (deletePriceLists ["price-list-1"] fixture) = [].
Proof.
  apply (deletePriceLists_then_list_by_id fixture "price-list-1" noConfig).
  eexists. split; [apply list_elem_of_here | reflexivity].
Defined.

(** ** Route handlers *)

Import Routes.

Lemma toInstance_undeclared (cls : ClassSchema) (plain : gmap string Json)
    (name : string) :
  plain !! name = None → toInstance cls plain !! name = None.
Proof.
  intros Hnone. induction cls as [|[n ds] cls IH]; [apply lookup_empty|].
  cbn [toInstance foldr] in *. destruct (plain !! n) as [v|] eqn:Hn; [|done].
  rewrite lookup_insert_ne; [done|]. congruence.
Qed.

Lemma toInstance_lookup (cls : ClassSchema) (plain : gmap string Json)
    (name : string) (decorators : list Decorator) :
  NoDup cls.*1 → (name, decorators) ∈ cls →
  toInstance cls plain !! name = transformed decorators <$> plain !! name.
Proof.
  induction cls as [|[n ds] cls IH]; intros Hnodup Hin.
  - by apply not_elem_of_nil in Hin.
  - rewrite fmap_cons in Hnodup. apply NoDup_cons in Hnodup as [Hfresh Hnodup].
    cbn [toInstance foldr]. fold (toInstance cls plain).
    apply elem_of_cons in Hin as [[= <- <-]|Hin].
    + destruct (plain !! name) as [v|] eqn:Hname.
      * by rewrite lookup_insert_eq.
      * by apply toInstance_undeclared.
    + assert (n ≠ name) as Hne.
      { intros ->. apply Hfresh.
        apply list_elem_of_fmap. by exists (name, decorators). }
      rewrite <- (IH Hnodup Hin).
      destruct (plain !! n); [by rewrite lookup_insert_ne|done].
Qed.

Lemma validator_model_enforces : enforcesDecorators validator_model.
Proof.
  intros cls plain inst Hnodup Hvalid name decorators Hin.
  unfold validator_model in Hvalid.
  destruct (bool_decide _ && forallb _ cls) eqn:Hboth; [|done].
  apply andb_true_iff in Hboth as [_ Hok].
  injection Hvalid as <-. split.
  - by apply toInstance_lookup.
  - rewrite forallb_forall in Hok.
    apply (Hok (name, decorators)). by apply list_elem_of_In.
Qed.

Section ListShippingOptionsFacts.

Variable optionalBooleanMapper : gmap string Json.
Variables defaultFields defaultRelations : list string.
Variable validator :
  ClassSchema -> gmap string Json -> Json + gmap string Json.
Variable shippingOptionService_listAndCount :
  gmap string Json -> Routes.FindConfig -> Json + (list Json * Z).

Hypothesis validator_enforces : enforcesDecorators validator.

Let cls := AdminGetShippingOptionsParams optionalBooleanMapper.
Let mapped := optionalBooleanMapper_get optionalBooleanMapper.

Let handler :=
  listShippingOptions optionalBooleanMapper defaultFields defaultRelations
    validator shippingOptionService_listAndCount.

Let config : Routes.FindConfig :=
  {| Routes.select := defaultFields; Routes.relations := defaultRelations |}.

Lemma AdminGetShippingOptionsParams_NoDup : NoDup cls.*1.
Proof.
  unfold cls, AdminGetShippingOptionsParams. cbn.
  repeat (apply NoDup_cons; split;
          [intros Hin;
           repeat (apply elem_of_cons in Hin as [Hin|Hin]; [discriminate|]);
           by apply not_elem_of_nil in Hin|]).
  apply NoDup_nil_2.
Qed.

Lemma validProperty_optional_string (v : Json) :
  validProperty [IsOptional; IsString] v = isNullish v || isString v.
Proof. by destruct v. Qed.

Lemma validProperty_optional_boolean (f : Json → Json) (v : Json) :
  validProperty [IsOptional; IsBoolean; Transform f] v
  = isNullish v || isBoolean v.
Proof. by destruct v. Qed.

Lemma validated_params (plain p : gmap string Json) :
  validator cls plain = inr p →
  p !! "region_id" = plain !! "region_id"
  ∧ p !! "is_return" = mapped <$> plain !! "is_return"
  ∧ p !! "admin_only" = mapped <$> plain !! "admin_only"
  ∧ isNullish (property p "region_id") || isString (property p "region_id") = true
  ∧ isNullish (property p "is_return") || isBoolean (property p "is_return") = true
  ∧ isNullish (property p "admin_only") || isBoolean (property p "admin_only") = true.
Proof.
  intros Hvalid.
  pose proof (validator_enforces cls plain p
                AdminGetShippingOptionsParams_NoDup Hvalid) as Hfields.
  destruct (Hfields "region_id" [IsOptional; IsString]) as [Hr1 Hr2].
  { apply list_elem_of_here. }
  destruct (Hfields "is_return" [IsOptional; IsBoolean; Transform mapped])
    as [Hi1 Hi2].
  { apply list_elem_of_further, list_elem_of_here. }
  destruct (Hfields "admin_only" [IsOptional; IsBoolean; Transform mapped])
    as [Ha1 Ha2].
  { do 2 apply list_elem_of_further. apply list_elem_of_here. }
  rewrite validProperty_optional_string in Hr2.
  rewrite validProperty_optional_boolean in Hi2, Ha2.
  cbn [transformed foldl] in Hr1, Hi1, Ha1.
  rewrite Hr1, Hi1, Ha1. split; [by destruct (plain !! "region_id")|].
  done.
Qed.

(** C6, as the code has it.  The handler of [GET /admin/shipping-options]
    validates the query first: [region_id], when it has a value, must be
    a string; [is_return] and [admin_only] are replaced by what the
    optional-boolean mapper makes of them, which must be a boolean unless
    it is [undefined] or [null], and a flag that the mapper does not know
    becomes [undefined] and passes as absent.  When validation fails the
    handler fails with it and the service is not called; otherwise the
    service's [listAndCount] gets the validated parameters with the
    default fields and relations, and when it returns the response is
    200 with the shipping options and the count. *)
Theorem listShippingOptions_validates_then_delegates (req : Request) :
  let run := handler req in
  let validated := validator cls (query req) in
  (∃ rest, effects run = Validate (query req) :: rest)
  ∧ (∀ e, validated = inl e →
       run = ([Validate (query req)], inl e)
       ∧ ∀ selector c, ListAndCount selector c ∉ effects run)
  ∧ (∀ p, validated = inr p →
       p !! "region_id" = query req !! "region_id"
       ∧ p !! "is_return" = mapped <$> query req !! "is_return"
       ∧ p !! "admin_only" = mapped <$> query req !! "admin_only"
       ∧ isNullish (property p "region_id") || isString (property p "region_id") = true
       ∧ isNullish (property p "is_return") || isBoolean (property p "is_return") = true
       ∧ isNullish (property p "admin_only") || isBoolean (property p "admin_only") = true
       ∧ (∀ flag, query req !! "is_return" = Some (JStr flag) →
            optionalBooleanMapper !! flag = None →
            p !! "is_return" = Some JUndefined)
       ∧ (∀ flag, query req !! "admin_only" = Some (JStr flag) →
            optionalBooleanMapper !! flag = None →
            p !! "admin_only" = Some JUndefined)
       ∧ ∀ data count,
           shippingOptionService_listAndCount p config = inr (data, count) →
           run = ([ Validate (query req);
                    Resolve "shippingOptionService";
                    ListAndCount p config;
                    Status 200;
                    SendJson (JObj [ ("shipping_options", JArr data);
                                     ("count", JNum count) ]) ],
                  inr tt)).
Proof.
  intros run validated.
  assert (Hrun : run =
    (await_validator validator cls (query req) ≫= λ validatedParams,
       resolve "shippingOptionService" ;;
       '(data, count) ← listAndCount shippingOptionService_listAndCount
                          validatedParams config;
       res_status 200 ;;
       res_json (JObj [("shipping_options", JArr data); ("count", JNum count)])))
    by reflexivity.
  pose proof (validated_params (query req)) as Hparams.
  unfold await_validator in Hrun. fold validated in Hrun, Hparams.
  destruct validated as [err|inst].
  - split; [|split].
    + rewrite Hrun. by eexists.
    + intros e [= <-]. rewrite Hrun. cbn. split; [done|].
      intros selector c Hin. apply elem_of_cons in Hin as [Hin|Hin]; [done|].
      by apply not_elem_of_nil in Hin.
    + intros p [=].
  - split; [|split].
    + rewrite Hrun. cbn.
      destruct (shippingOptionService_listAndCount _ _) as [e|[data count]];
        eexists; reflexivity.
    + intros e [=].
    + intros p [= <-].
      destruct (Hparams inst eq_refl) as (H1 & H2 & H3 & H4 & H5 & H6).
      do 6 (split; [done|]).
      split; [|split].
      { intros flag Hflag Hunknown. rewrite H2, Hflag. cbn.
        unfold mapped, optionalBooleanMapper_get. by rewrite Hunknown. }
      { intros flag Hflag Hunknown. rewrite H3, Hflag. cbn.
        unfold mapped, optionalBooleanMapper_get. by rewrite Hunknown. }
      intros data count Hsvc. rewrite Hrun. cbn. by rewrite Hsvc.
Qed.

End ListShippingOptionsFacts.

Example listShippingOptions_rejects_array :
  listShippingOptions sampleMapper ["id"] ["region"] validator_model
    sampleListAndCount
    {| params := ∅;
       query := <["region_id" := JArr [JStr "reg_1"; JStr "reg_2"]]> ∅ |}
  = ([Validate (<["region_id" := JArr [JStr "reg_1"; JStr "reg_2"]]> ∅)],
     inl invalidData).
Proof. vm_compute. reflexivity. Qed.

(** A flag that the mapper does not know becomes [undefined], which
    [@IsOptional()] lets through. *)
Example listShippingOptions_unknown_flag :
  validator_model (AdminGetShippingOptionsParams sampleMapper)
    (<["is_return" := JStr "yes"]> ∅)
  = inr (<["is_return" := JUndefined]> ∅).
Proof. vm_compute. reflexivity. Qed.

(** A request for the return options of a region, with the modelled
    validator and a service that finds one option. *)
Lemma listShippingOptions_validates_then_delegates_witness :
  listShippingOptions sampleMapper ["id"] ["region"] validator_model
    sampleListAndCount sampleListRequest
  = ([ Validate (query sampleListRequest);
       Resolve "shippingOptionService";
       ListAndCount
         (<["region_id" := JStr "reg_1"]> (<["is_return" := JBool true]> ∅))
         {| Routes.select := ["id"]; Routes.relations := ["region"] |};
       Status 200;
       SendJson (JObj [ ("shipping_options", JArr [JObj [("id", JStr "so_1")]]);
                        ("count", JNum 1) ]) ],
     inr tt).
Proof.
  pose proof (listShippingOptions_validates_then_delegates sampleMapper
                ["id"] ["region"] validator_model sampleListAndCount
                validator_model_enforces sampleListRequest) as H.
  cbv zeta in H. destruct H as (_ & _ & H).
  destruct (H (<["region_id" := JStr "reg_1"]> (<["is_return" := JBool true]> ∅)))
    as (_ & _ & _ & _ & _ & _ & _ & _ & Hrun).
  - vm_compute. reflexivity.
  - apply Hrun. reflexivity.
Defined.

(** C6, as stated, fails: [is_return=yes] is present and the mapper makes
    no boolean of it, yet validation succeeds, the service is called
    (with [is_return] undefined) and the response is sent. *)
Lemma listShippingOptions_accepts_unmapped_flag :
  query sampleUnmappedFlagRequest !! "is_return" = Some (JStr "yes")
  ∧ isBoolean (optionalBooleanMapper_get sampleMapper (JStr "yes")) = false
  ∧ listShippingOptions sampleMapper ["id"] ["region"] validator_model
      sampleListAndCount sampleUnmappedFlagRequest
    = ([ Validate (query sampleUnmappedFlagRequest);
         Resolve "shippingOptionService";
         ListAndCount (<["is_return" := JUndefined]> ∅)
           {| Routes.select := ["id"]; Routes.relations := ["region"] |};
         Status 200;
         SendJson (JObj [ ("shipping_options",
                           JArr [JObj [("id", JStr "so_1")]]);
                          ("count", JNum 1) ]) ],
       inr tt).
Proof.
  split; [by vm_compute|]. split; [by vm_compute|].
  vm_compute. reflexivity.
Qed.

(** A parameter that the class does not declare is refused. *)
Example listShippingOptions_rejects_undeclared :
  validator_model (AdminGetShippingOptionsParams sampleMapper)
    (<["limit" := JStr "10"]> ∅)
  = inl invalidData.
Proof. vm_compute. reflexivity. Qed.

Section DeleteProductFacts.

Variable productService_delete : Json -> option Json.

Let handler := deleteProduct productService_delete.

(** C7, as the code has it.  The handler of [DELETE /admin/products/{id}]
    validates nothing itself and delegates: for every request it runs
    [productService.delete(id)] inside one transaction; when that
    completes the transaction commits and the response is exactly
    [{ id, object: "product", deleted: true }] with the id of the path,
    and when it throws the transaction rolls back and the handler throws
    without responding. *)
Theorem deleteProduct_delegates_in_transaction (req : Request) :
  let run := handler req in
  let id := paramId req in
  (∀ plain, Validate plain ∉ effects run)
  ∧ (productService_delete id = None →
       run = ([ Resolve "productService"; Resolve "manager";
                TransactionBegin; ProductDelete id; TransactionCommit;
                SendJson (JObj [ ("id", id); ("object", JStr "product");
                                 ("deleted", JBool true) ]) ],
              inr tt))
  ∧ (∀ e, productService_delete id = Some e →
       run = ([ Resolve "productService"; Resolve "manager";
                TransactionBegin; ProductDelete id; TransactionRollback ],
              inl e)).
Proof.
  intros run id.
  assert (Hrun : run =
    match productService_delete id with
    | None =>
        ([ Resolve "productService"; Resolve "manager";
           TransactionBegin; ProductDelete id; TransactionCommit;
           SendJson (JObj [ ("id", id); ("object", JStr "product");
                            ("deleted", JBool true) ]) ],
         inr tt)
    | Some e =>
        ([ Resolve "productService"; Resolve "manager";
           TransactionBegin; ProductDelete id; TransactionRollback ],
         inl e)
    end).
  { unfold run, handler, deleteProduct, transaction, withTransaction_delete.
    fold id. cbn.
    by destruct (productService_delete id). }
  split; [|split].
  - intros plain Hin. rewrite Hrun in Hin. unfold effects in Hin.
    destruct (productService_delete id); cbn [fst] in Hin;
      repeat (apply elem_of_cons in Hin as [Hin|Hin]; [discriminate|]);
      by apply not_elem_of_nil in Hin.
  - intros Hnone. by rewrite Hrun, Hnone.
  - intros e He. by rewrite Hrun, He.
Qed.

End DeleteProductFacts.

(** C7, as stated, fails: the handler does not validate its input.  On
    a request for [prod_1] whose deletion succeeds, no validation is
    among the effects of the handler. *)
Lemma deleteProduct_does_not_validate :
  ¬ ∃ plain,
      Validate plain ∈ effects (deleteProduct (fun _ => None) sampleDeleteRequest).
Proof.
  intros [plain Hin]. vm_compute in Hin.
  repeat (apply elem_of_cons in Hin as [Hin|Hin]; [discriminate|]).
  by apply not_elem_of_nil in Hin.
Qed.

(** Deleting [prod_1], with a service that succeeds. *)
Lemma deleteProduct_delegates_in_transaction_witness :
  deleteProduct (fun _ => None) sampleDeleteRequest
  = ([ Resolve "productService"; Resolve "manager";
       TransactionBegin; ProductDelete (JStr "prod_1"); TransactionCommit;
       SendJson (JObj [ ("id", JStr "prod_1"); ("object", JStr "product");
                        ("deleted", JBool true) ]) ],
     inr tt).
Proof.
  apply (proj1 (proj2 (deleteProduct_delegates_in_transaction
                         (fun _ => None) sampleDeleteRequest))).
  reflexivity.
Defined.

(* ===================================================================== *)
(** * Further properties of the code *)
(* ===================================================================== *)

(** ** Swap keys *)

(** X1. Invalidating the key of one cart reaches neither the swaps of
    another cart nor the domain key: the key of a cart is a prefix of
    the key of no other cart, and never a prefix of [swapKey.all]. *)
Theorem swapKey_cart_prefix_free
    (queryKeysFactory : string → TQueryKey) (cartId cartId' : string) :
  let k := swapKey queryKeysFactory in
  (cartId ≠ cartId' → ¬ cart k cartId `prefix_of` cart k cartId')
  ∧ ¬ cart k cartId `prefix_of` all k.
Proof.
  intros k. split.
  - intros Hne [rest Hrest]. apply Hne. cbn in Hrest.
    rewrite <- app_assoc in Hrest. apply app_inv_head in Hrest.
    by injection Hrest.
  - intros [rest Hrest]. cbn in Hrest.
    apply (f_equal length) in Hrest. rewrite !length_app in Hrest.
    cbn in Hrest. lia.
Qed.

(** The carts [cart_1] and [cart_2] on the sample factory. *)
Lemma swapKey_cart_prefix_free_witness :
  ¬ cart (swapKey sampleFactory) "cart_1"
      `prefix_of` cart (swapKey sampleFactory) "cart_2".
Proof.
  apply (proj1 (swapKey_cart_prefix_free sampleFactory "cart_1" "cart_2")).
  discriminate.
Defined.

(** ** [buildCustomOptions] *)

Section HooksExtras.

Variables (adminProductKeys adminCustomerKeys adminCustomerGroupKeys
           adminOrderKeys adminDiscountKeys adminGiftCardKeys
           adminPriceListKeys : TQueryKey).

Let domainKeys (d : RelatedDomain) : TQueryKey :=
  match d with
  | product => adminProductKeys
  | customer => adminCustomerKeys
  | customer_group => adminCustomerGroupKeys
  | order => adminOrderKeys
  | discount => adminDiscountKeys
  | gift_card => adminGiftCardKeys
  | price_list => adminPriceListKeys
  end.

Let customOptions :=
  buildCustomOptions adminProductKeys adminCustomerKeys
    adminCustomerGroupKeys adminOrderKeys adminDiscountKeys adminGiftCardKeys
    adminPriceListKeys.

(** The keys that [onSuccess] invalidates, in order. *)
Let added (queryKey : option QueryKey) (rd : option RelatedDomains)
  : list Json :=
  default [] queryKey
    ++ ((λ d, JArr (all (domainKeys d)))
          <$> filter (λ d, get (default [] rd) d = Some true)
                     (Object_keys (default [] rd))).

Lemma buildCustomOptions_succeeded (fn : Json → ClientRequest)
    (queryKey : option QueryKey) (options : option UseMutationOptions)
    (rd : option RelatedDomains) (args : list Json) (qc : QueryClient) :
  mutationSucceeded (useMutation fn (Some (customOptions queryKey options rd)))
    args qc
  = match onSuccessOf options with
    | Some (VFun g) => g args (qc ++ added queryKey rd)
    | Some (VData v) =>
        (if truthy v then Throw notAFunction else Normal JUndefined,
         qc ++ added queryKey rd)
    | None => (Normal JUndefined, qc ++ added queryKey rd)
    end.
Proof.
  destruct (buildCustomOptions_onSuccess adminProductKeys adminCustomerKeys
              adminCustomerGroupKeys adminOrderKeys adminDiscountKeys
              adminGiftCardKeys adminPriceListKeys queryKey options rd)
    as (f & Hf & Hrun).
  unfold mutationSucceeded.
  cbn [mutationOptions onSuccessOf mbind option_bind].
  fold customOptions in Hf. rewrite Hf. apply Hrun.
Qed.

Lemma no_flag_no_domain (rd : RelatedDomains) :
  (∀ d, get rd d ≠ Some true) →
  filter (λ d, get rd d = Some true) (Object_keys rd) = [].
Proof.
  intros Hnone. apply elem_of_nil_inv. intros d Hd.
  apply list_elem_of_filter in Hd as [Hd _]. by apply (Hnone d).
Qed.

(** X2. Options built by [buildCustomOptions] can be given to
    [buildCustomOptions] again: on success the keys and domains of the
    outer call are invalidated first, then those of the inner call, and
    then the caller's [onSuccess] runs. *)
Theorem buildCustomOptions_nested (fn : Json → ClientRequest)
    (innerKey outerKey : option QueryKey)
    (innerDomains outerDomains : option RelatedDomains)
    (options : option UseMutationOptions) :
  let inner := customOptions innerKey options innerDomains in
  let outer := customOptions outerKey (Some inner) outerDomains in
  invalidatesOnSuccess (useMutation fn (Some outer)) options
    (added outerKey outerDomains ++ added innerKey innerDomains).
Proof.
  intros inner outer args qc.
  destruct (buildCustomOptions_onSuccess adminProductKeys adminCustomerKeys
              adminCustomerGroupKeys adminOrderKeys adminDiscountKeys
              adminGiftCardKeys adminPriceListKeys innerKey options
              innerDomains) as (f & Hf & Hrun).
  fold customOptions in Hf. fold inner in Hf. fold domainKeys in Hrun.
  assert (Houter : mutationSucceeded (useMutation fn (Some outer)) args qc
                   = f args (qc ++ added outerKey outerDomains)).
  { unfold outer. rewrite buildCustomOptions_succeeded.
    cbn [onSuccessOf mbind option_bind]. by rewrite Hf. }
  rewrite Houter, Hrun. fold (added innerKey innerDomains).
  rewrite <- app_assoc. split.
  - intros g Hg. by rewrite Hg.
  - intros [Hnone|Hundef]; [by rewrite Hnone | by rewrite Hundef].
Qed.

(** X3. Related domains of which none is flagged [true] count for
    nothing, and so does an empty list of keys: on success the options
    behave like the ones built without them. *)
Theorem buildCustomOptions_unflagged_domains (fn : Json → ClientRequest)
    (queryKey : option QueryKey) (rd : RelatedDomains)
    (options : option UseMutationOptions) (args : list Json)
    (qc : QueryClient) :
  (∀ d, get rd d ≠ Some true) →
  mutationSucceeded
    (useMutation fn (Some (customOptions queryKey options (Some rd)))) args qc
  = mutationSucceeded
      (useMutation fn (Some (customOptions queryKey options None))) args qc
  ∧ mutationSucceeded
      (useMutation fn (Some (customOptions (Some []) options (Some rd)))) args qc
    = mutationSucceeded
        (useMutation fn (Some (customOptions None options None))) args qc.
Proof.
  intros Hnone. rewrite !buildCustomOptions_succeeded.
  unfold added. change (default [] (Some rd)) with rd.
  rewrite (no_flag_no_domain rd Hnone). done.
Qed.

(** X4. With no key and no related domain, [buildCustomOptions] is
    transparent: for options whose [onSuccess] is a function, absent,
    [undefined] or [null], a mutation registered with the built options
    succeeds exactly as one registered with the caller's own. *)
Theorem buildCustomOptions_transparent (fn : Json → ClientRequest)
    (options : option UseMutationOptions) (args : list Json)
    (qc : QueryClient) :
  (∀ v, onSuccessOf options = Some (VData v) → v = JUndefined ∨ v = JNull) →
  mutationSucceeded (useMutation fn (Some (customOptions None options None)))
    args qc
  = mutationSucceeded (useMutation fn options) args qc.
Proof.
  intros Htyped. rewrite buildCustomOptions_succeeded.
  unfold mutationSucceeded at 1. cbn [mutationOptions].
  unfold added. cbn. rewrite app_nil_r.
  destruct (onSuccessOf options) as [[v|g]|]; [|done..].
  by destruct (Htyped v eq_refl) as [-> | ->].
Qed.

End HooksExtras.

(** The sample hook wrapped once more, with a key and a domain of its
    own: the outer invalidations come first. *)
Lemma buildCustomOptions_nested_witness :
  mutationSucceeded
    (useMutation (fun payload => admin_custom_post "/blog/posts" payload)
       (Some (buildCustomOptions
                (sampleFactory "admin_products") (sampleFactory "admin_customers")
                (sampleFactory "admin_customer_groups") (sampleFactory "admin_orders")
                (sampleFactory "admin_discounts") (sampleFactory "admin_gift_cards")
                (sampleFactory "admin_price_lists")
                (Some [JStr "comments"])
                (mutationOptions sampleCustomPost)
                (Some [(order, true)]))))
    [JStr "post_1"] []
  = sampleCaller [JStr "post_1"]
      [ JStr "comments"; JArr [JStr "admin_orders"];
        JStr "posts"; JArr [JStr "admin_products"];
        JArr [JStr "admin_customers"] ].
Proof.
  apply (proj1 (buildCustomOptions_nested
                  (sampleFactory "admin_products") (sampleFactory "admin_customers")
                  (sampleFactory "admin_customer_groups") (sampleFactory "admin_orders")
                  (sampleFactory "admin_discounts") (sampleFactory "admin_gift_cards")
                  (sampleFactory "admin_price_lists")
                  (fun payload => admin_custom_post "/blog/posts" payload)
                  (Some [JStr "posts"]) (Some [JStr "comments"])
                  (Some [(product, true); (order, false); (customer, true)])
                  (Some [(order, true)])
                  sampleOptions [JStr "post_1"] [])).
  vm_compute. reflexivity.
Defined.

(** Related domains that are all [false], on the sample keys. *)
Lemma buildCustomOptions_unflagged_domains_witness :
  mutationSucceeded
    (useAdminCustomPost
       (sampleFactory "admin_products") (sampleFactory "admin_customers")
       (sampleFactory "admin_customer_groups") (sampleFactory "admin_orders")
       (sampleFactory "admin_discounts") (sampleFactory "admin_gift_cards")
       (sampleFactory "admin_price_lists")
       "/blog/posts" [JStr "posts"]
       (Some [(product, false); (order, false)]) sampleOptions)
    [JStr "post_1"] []
  = mutationSucceeded
      (useAdminCustomPost
         (sampleFactory "admin_products") (sampleFactory "admin_customers")
         (sampleFactory "admin_customer_groups") (sampleFactory "admin_orders")
         (sampleFactory "admin_discounts") (sampleFactory "admin_gift_cards")
         (sampleFactory "admin_price_lists")
         "/blog/posts" [JStr "posts"] None sampleOptions)
      [JStr "post_1"] [].
Proof.
  apply (proj1 (buildCustomOptions_unflagged_domains
                  (sampleFactory "admin_products") (sampleFactory "admin_customers")
                  (sampleFactory "admin_customer_groups") (sampleFactory "admin_orders")
                  (sampleFactory "admin_discounts") (sampleFactory "admin_gift_cards")
                  (sampleFactory "admin_price_lists")
                  (fun payload => admin_custom_post "/blog/posts" payload)
                  (Some [JStr "posts"]) [(product, false); (order, false)]
                  sampleOptions [JStr "post_1"] []
                  ltac:(intros d; destruct d; vm_compute; discriminate))).
Defined.

(** The sample options, built without keys or domains. *)
Lemma buildCustomOptions_transparent_witness :
  mutationSucceeded
    (useMutation (fun payload => admin_custom_post "/blog/posts" payload)
       (Some (buildCustomOptions
                (sampleFactory "admin_products") (sampleFactory "admin_customers")
                (sampleFactory "admin_customer_groups") (sampleFactory "admin_orders")
                (sampleFactory "admin_discounts") (sampleFactory "admin_gift_cards")
                (sampleFactory "admin_price_lists")
                None sampleOptions None)))
    [JStr "post_1"] []
  = mutationSucceeded
      (useMutation (fun payload => admin_custom_post "/blog/posts" payload)
         sampleOptions)
      [JStr "post_1"] [].
Proof.
  apply (buildCustomOptions_transparent
           (sampleFactory "admin_products") (sampleFactory "admin_customers")
           (sampleFactory "admin_customer_groups") (sampleFactory "admin_orders")
           (sampleFactory "admin_discounts") (sampleFactory "admin_gift_cards")
           (sampleFactory "admin_price_lists")
           (fun payload => admin_custom_post "/blog/posts" payload)
           sampleOptions [JStr "post_1"] []).
  intros v Hv. vm_compute in Hv. discriminate.
Defined.

(** ** Query hooks *)

(** X5. What the query hooks return is the response overlaid by the
    state of the query: every property of the query state is returned as
    it is, a field of the response is returned when the query state has
    no property of that name (and hidden when it has one), and as long
    as there is no response the result is the query state alone.  This
    holds for [useAdminReturnReasons], [useAdminReturnReason] and
    [useCartSwap] alike. *)
Theorem query_hooks_overlay_response
    (queryKeysFactory : string → TQueryKey)
    (useQuery : QueryKey → QueryRequest → option (gmap string Value) →
                UseQueryResult)
    (id cartId : string) (options : option (gmap string Value)) :
  let overlays := λ (returned : gmap string Value) (r : UseQueryResult),
    (∀ (name : string) v,
       query_rest r !! name = Some v → returned !! name = Some v)
    ∧ (∀ name : string, query_rest r !! name = None →
         returned !! name = VData <$> (query_data r ≫= (.!! name)))
    ∧ (query_data r = None → returned = query_rest r) in
  overlays (useAdminReturnReasons queryKeysFactory useQuery options)
    (useQuery (lists (queryKeysFactory "admin_return_reasons"))
       admin_returnReasons_list options)
  ∧ overlays (useAdminReturnReason queryKeysFactory useQuery id options)
      (useQuery (detail (queryKeysFactory "admin_return_reasons") id)
         (admin_returnReasons_retrieve id) options)
  ∧ overlays (useCartSwap queryKeysFactory useQuery cartId options)
      (useQuery (cart (swapKey queryKeysFactory) cartId)
         (swaps_retrieveByCartId cartId) options).
Proof.
  assert (Hoverlay : ∀ r : UseQueryResult,
    let returned := query_rest r ∪ (VData <$> default ∅ (query_data r)) in
    (∀ (name : string) v,
       query_rest r !! name = Some v → returned !! name = Some v)
    ∧ (∀ name : string, query_rest r !! name = None →
         returned !! name = VData <$> (query_data r ≫= (.!! name)))
    ∧ (query_data r = None → returned = query_rest r)).
  { intros r returned. split; [|split].
    - intros name v Hname. by apply lookup_union_Some_l.
    - intros name Hname. unfold returned.
      rewrite lookup_union_r by done. rewrite lookup_fmap.
      by destruct (query_data r).
    - intros Hnone. unfold returned. rewrite Hnone. cbn.
      by rewrite fmap_empty, (right_id_L ∅ (∪)). }
  intros overlays. split; [|split]; apply Hoverlay.
Qed.

(** The swap of [cart_1] under the sample query: the [status] of the
    query hides the [status] of the response. *)
Lemma query_hooks_overlay_response_witness :
  useCartSwap sampleFactory sampleUseQuery "cart_1" None !! "status"
  = Some (VData (JStr "success")).
Proof.
  pose proof (query_hooks_overlay_response sampleFactory sampleUseQuery
                "rr_1" "cart_1" None) as H.
  cbv zeta beta in H. destruct H as (_ & _ & H & _).
  apply H. vm_compute. reflexivity.
Defined.

(** ** Route handlers *)

Section ListShippingOptionsExtras.

Variable optionalBooleanMapper : gmap string Json.
Variables defaultFields defaultRelations : list string.
Variable validator :
  ClassSchema -> gmap string Json -> Json + gmap string Json.
Variable shippingOptionService_listAndCount :
  gmap string Json -> Routes.FindConfig -> Json + (list Json * Z).

Let cls := AdminGetShippingOptionsParams optionalBooleanMapper.

Let handler :=
  listShippingOptions optionalBooleanMapper defaultFields defaultRelations
    validator shippingOptionService_listAndCount.

Let config : Routes.FindConfig :=
  {| Routes.select := defaultFields; Routes.relations := defaultRelations |}.

(** The three ways a request can go. *)
Lemma listShippingOptions_run (req : Request) :
  handler req
  = match validator cls (query req) with
    | inl e => ([Validate (query req)], inl e)
    | inr p =>
        match shippingOptionService_listAndCount p config with
        | inl e =>
            ([ Validate (query req); Resolve "shippingOptionService";
               ListAndCount p config ], inl e)
        | inr (data, count) =>
            ([ Validate (query req); Resolve "shippingOptionService";
               ListAndCount p config; Status 200;
               SendJson (JObj [ ("shipping_options", JArr data);
                                ("count", JNum count) ]) ], inr tt)
        end
    end.
Proof.
  unfold handler, listShippingOptions, await_validator. fold cls.
  destruct (validator cls (query req)) as [e|p]; [done|].
  cbn. fold config.
  by destruct (shippingOptionService_listAndCount p config) as [e|[data count]].
Qed.

(** X6. The handler calls the service exactly when validation succeeds,
    and then with what the validator returned and the default fields and
    relations; it does not call it a second time. *)
Theorem listShippingOptions_service_calls (req : Request)
    (selector : gmap string Json) (c : Routes.FindConfig) :
  (ListAndCount selector c ∈ effects (handler req)
   ↔ validator cls (query req) = inr selector ∧ c = config)
  ∧ (∀ before after,
       effects (handler req) = before ++ ListAndCount selector c :: after →
       ∀ selector' c', ListAndCount selector' c' ∉ before ++ after).
Proof.
  rewrite listShippingOptions_run. unfold effects. split.
  - destruct (validator cls (query req)) as [e|p];
      [|destruct (shippingOptionService_listAndCount p config)
          as [e|[data count]]];
      cbn [fst]; (split; [intros Hin|intros [[= <-] ->]]);
      try (repeat (apply elem_of_cons in Hin as [Hin|Hin]; [by simplify_eq|]);
           by apply not_elem_of_nil in Hin).
    + do 2 apply list_elem_of_further. apply list_elem_of_here.
    + do 2 apply list_elem_of_further. apply list_elem_of_here.
  - intros before after Heq selector' c' Hin.
    destruct (validator cls (query req)) as [e|p];
      [|destruct (shippingOptionService_listAndCount p config)
          as [e|[data count]]];
      cbn [fst] in Heq;
      repeat (destruct before as [|? before]; cbn in *; simplify_eq);
      repeat (apply elem_of_cons in Hin as [Hin|Hin]; [discriminate|]);
      by apply not_elem_of_nil in Hin.
Qed.

(** X7. When the service throws, the handler throws the same error and
    sends nothing: neither a status nor a body. *)
Theorem listShippingOptions_service_failure (req : Request)
    (p : gmap string Json) (e : Json) :
  validator cls (query req) = inr p →
  shippingOptionService_listAndCount p config = inl e →
  outcome (handler req) = inl e
  ∧ (∀ code, Status code ∉ effects (handler req))
  ∧ (∀ body, SendJson body ∉ effects (handler req)).
Proof.
  intros Hvalid Hsvc. rewrite listShippingOptions_run, Hvalid, Hsvc.
  split; [done|]. unfold effects. cbn [fst].
  split; intros x Hin;
    repeat (apply elem_of_cons in Hin as [Hin|Hin]; [discriminate|]);
    by apply not_elem_of_nil in Hin.
Qed.

(** X8. The handler sends a body exactly when it completes without
    error; the body then carries what the service returned for the
    validated parameters, and the only status it ever sets is 200. *)
Theorem listShippingOptions_response (req : Request) :
  ((∃ body, SendJson body ∈ effects (handler req))
   ↔ outcome (handler req) = inr tt)
  ∧ (∀ body, SendJson body ∈ effects (handler req) →
       ∃ p data count,
         validator cls (query req) = inr p
         ∧ shippingOptionService_listAndCount p config = inr (data, count)
         ∧ body = JObj [("shipping_options", JArr data); ("count", JNum count)])
  ∧ (∀ code, Status code ∈ effects (handler req) → code = 200%Z).
Proof.
  rewrite listShippingOptions_run. unfold effects, outcome.
  destruct (validator cls (query req)) as [e|p] eqn:Hvalid;
    [|destruct (shippingOptionService_listAndCount p config)
        as [e|[data count]] eqn:Hsvc];
    cbn [fst snd].
  - split; [split; [intros [body Hin]|intros [=]]
           |split; [intros body Hin|intros code Hin]];
      repeat (apply elem_of_cons in Hin as [Hin|Hin]; [discriminate|]);
      by apply not_elem_of_nil in Hin.
  - split; [split; [intros [body Hin]|intros [=]]
           |split; [intros body Hin|intros code Hin]];
      repeat (apply elem_of_cons in Hin as [Hin|Hin]; [discriminate|]);
      by apply not_elem_of_nil in Hin.
  - split; [split|split].
    + done.
    + intros _. eexists. do 4 apply list_elem_of_further.
      apply list_elem_of_here.
    + intros body Hin. exists p, data, count. split; [done|]. split; [done|].
      repeat (apply elem_of_cons in Hin as [Hin|Hin]; [by simplify_eq|]).
      by apply not_elem_of_nil in Hin.
    + intros code Hin.
      repeat (apply elem_of_cons in Hin as [Hin|Hin]; [by simplify_eq|]).
      by apply not_elem_of_nil in Hin.
Qed.

End ListShippingOptionsExtras.

(** A request whose validation succeeds, with a service that fails. *)
Lemma listShippingOptions_service_failure_witness :
  outcome (listShippingOptions sampleMapper ["id"] ["region"] validator_model
             sampleFailingListAndCount sampleListRequest)
  = inl (JStr "connection lost").
Proof.
  apply (listShippingOptions_service_failure sampleMapper ["id"] ["region"]
           validator_model sampleFailingListAndCount sampleListRequest
           (<["region_id" := JStr "reg_1"]> (<["is_return" := JBool true]> ∅))
           (JStr "connection lost")).
  - vm_compute. reflexivity.
  - reflexivity.
Defined.

(** ** Stock-location hooks *)

Section StockLocationExtras.

Variables (adminProductKeys adminVariantKeys adminStockLocationsKeys
           : TQueryKey).
Variable buildOptions :
  option QueryKey → option UseMutationOptions → UseMutationOptions.

(** For a caller without options, the helper invalidates on success the
    keys it is given. *)
Hypothesis buildOptions_invalidates :
  ∀ (fn : Json → ClientRequest) keys args qc,
    (mutationSucceeded
       (useMutation fn (Some (buildOptions (Some keys) None))) args qc).2
    = qc ++ keys.

(** X9. For a caller without options and a helper that then invalidates
    the keys it is given, the three stock-location mutations nest: creating
    invalidates the list keys, updating invalidates these and the detail
    key of the location, deleting invalidates these and also the whole
    variant key set and the product list keys. *)
Theorem stock_location_hooks_nest (id : string) (args : list Json)
    (qc : QueryClient) :
  let created :=
    (mutationSucceeded
       (useAdminCreateStockLocation adminStockLocationsKeys buildOptions None)
       args qc).2 in
  let updated :=
    (mutationSucceeded
       (useAdminUpdateStockLocation adminStockLocationsKeys buildOptions id None)
       args qc).2 in
  let deleted :=
    (mutationSucceeded
       (useAdminDeleteStockLocation adminProductKeys adminVariantKeys
          adminStockLocationsKeys buildOptions id None)
       args qc).2 in
  created = qc ++ [JArr (lists adminStockLocationsKeys)]
  ∧ updated = created ++ [JArr (detail adminStockLocationsKeys id)]
  ∧ deleted = updated ++ [JArr (all adminVariantKeys);
                          JArr (lists adminProductKeys)].
Proof.
  intros created updated deleted.
  assert (Hc : created = qc ++ [JArr (lists adminStockLocationsKeys)]).
  { unfold created, useAdminCreateStockLocation.
    by rewrite buildOptions_invalidates. }
  assert (Hu : updated = qc ++ [JArr (lists adminStockLocationsKeys);
                                JArr (detail adminStockLocationsKeys id)]).
  { unfold updated, useAdminUpdateStockLocation.
    by rewrite buildOptions_invalidates. }
  assert (Hd : deleted = qc ++ [JArr (lists adminStockLocationsKeys);
                                JArr (detail adminStockLocationsKeys id);
                                JArr (all adminVariantKeys);
                                JArr (lists adminProductKeys)]).
  { unfold deleted, useAdminDeleteStockLocation.
    by rewrite buildOptions_invalidates. }
  rewrite Hc, Hu, Hd, <- !app_assoc. done.
Qed.

End StockLocationExtras.

(** The stock location [sloc_1] on the sample keys, with the modelled
    helper. *)
Lemma stock_location_hooks_nest_witness :
  (mutationSucceeded
     (useAdminUpdateStockLocation (sampleFactory "admin_stock_locations")
        buildOptions_model "sloc_1" None) [] []).2
  = (mutationSucceeded
       (useAdminCreateStockLocation (sampleFactory "admin_stock_locations")
          buildOptions_model None) [] []).2
    ++ [JArr [JStr "admin_stock_locations"; JStr "detail"; JStr "sloc_1"]].
Proof.
  apply (proj1 (proj2 (stock_location_hooks_nest
                         (sampleFactory "admin_products")
                         (sampleFactory "admin_variants")
                         (sampleFactory "admin_stock_locations")
                         buildOptions_model
                         ltac:(intros fn keys args qc;
                               by rewrite buildOptions_model_succeeded)
                         "sloc_1" [] []))).
Defined.
